(** * DrivingGame: the vehicle motion model

    A shallow embedding of the [Vehicle] class of [vehicle.js] (its
    constructor, key handlers, [update] with its sub-steps, [reset]) and of
    [Environment.getHeightAtPosition] of [environment.js], followed by the
    properties of the motion model: the caps on speed and steering, braking,
    acceleration, coasting, the kinematic integrator, the terrain follower
    and reset.

    JavaScript numbers are idealised as real numbers: [Math.max], [Math.min],
    [Math.abs], [Math.sin], [Math.cos], [Math.PI] are [Rmax], [Rmin], [Rabs],
    [sin], [cos], [PI]; rounding, infinities and NaN are outside the model.
    The engine is a parameter: its vector and quaternion functions form the
    class [Babylon], and what it shows the vehicle in a frame (ray picks,
    wheel poses, the environment) is a [Frame]. *)

From Stdlib Require Import Reals Lra Lia String Ascii.
From stdpp Require Import base list.

Open Scope R_scope.

(** ** The part of [Math] that the standard library does not name *)

Module Math.

(** [Math.sign]: 1, -1 or 0. *)
Definition sign (a : R) : R :=
  if Rlt_dec 0 a then 1 else if Rlt_dec a 0 then -1 else 0.

End Math.

(** ** The engine's value types *)

Module Vector3.
Record t : Type := mk { x : R; y : R; z : R }.

Definition Zero : t := mk 0 0 0.
Definition set_x (a : R) (p : t) : t := mk a (y p) (z p).
Definition set_y (a : R) (p : t) : t := mk (x p) a (z p).
Definition set_z (a : R) (p : t) : t := mk (x p) (y p) a.
End Vector3.

Module Quaternion.
Record t : Type := mk { x : R; y : R; z : R; w : R }.
End Quaternion.

Module Ray.
Record t : Type :=
  mk { origin : Vector3.t; direction : Vector3.t; length : R }.
End Ray.

(** The result of [scene.pickWithRay]: [hit] is false, or [hit] is true and
    the picked point and the normal of the picked face are there. *)
Inductive PickingInfo : Type :=
| NoHit
| Hit (pickedPoint : Vector3.t) (normal : Vector3.t).

(** The engine functions that the vehicle calls and that are not part of the
    repository: vector algebra, the quaternion of a basis, and spherical
    interpolation. *)
Class Babylon : Type := {
  Vector3_Lerp : Vector3.t -> Vector3.t -> R -> Vector3.t;
  Vector3_subtract : Vector3.t -> Vector3.t -> Vector3.t;
  Vector3_normalize : Vector3.t -> Vector3.t;
  Vector3_Cross : Vector3.t -> Vector3.t -> Vector3.t;
  Vector3_Distance : Vector3.t -> Vector3.t -> R;
  (* Quaternion.FromRotationMatrix (Matrix.FromXYZAxes a b c) *)
  Quaternion_FromXYZAxes : Vector3.t -> Vector3.t -> Vector3.t -> Quaternion.t;
  (* the value that Quaternion.SlerpToRef a b amount _ stores *)
  Quaternion_Slerp : Quaternion.t -> Quaternion.t -> R -> Quaternion.t
}.

(** A scene answers ray picks. *)
Record Scene : Type := { pickWithRay : Ray.t -> PickingInfo }.

(** ** [Environment.getHeightAtPosition] *)

Record Environment : Type := { env_scene : Scene }.

(** The value is a JavaScript number or [null]; [None] stands for [null]. *)
Definition getHeightAtPosition (e : Environment) (x z : R) : option R :=
  let ray := Ray.mk (Vector3.mk x 100 z) (Vector3.mk 0 (-1) 0) 200 in
  let pickInfo := pickWithRay (env_scene e) ray in
  match pickInfo with
  | Hit pickedPoint _ => Some (Vector3.y pickedPoint)
  | NoHit => Some 0 (* Default height if no ground is found *)
  end.

(** ** The vehicle *)

(** Vehicle characteristics: assigned once in the constructor and never
    assigned again. *)
Definition maxSpeed : R := 80.
Definition acceleration : R := 0.5.
Definition deceleration : R := 0.2.
Definition brakeForce : R := 1.5.
Definition turnSpeed : R := 0.05.
Definition wheelBase : R := 4.
Definition wheelTrack : R := 2.
Definition wheelRadius : R := 0.7.
Definition maxSteeringAngle : R := PI / 6.
Definition suspensionRestLength : R := 0.6.
Definition suspensionStiffness : R := 30.
Definition suspensionTravel : R := 0.3.

Record Controls : Type := mkControls {
  forward : bool;
  backward : bool;
  left : bool;
  right : bool;
  brake : bool;
  handbrake : bool;
  cameraToggle : bool
}.

Inductive CameraMode : Type := follow | chase | firstPerson.

(** [mesh.position], [mesh.rotation] and [mesh.rotationQuaternion] (null
    until the terrain step first stores one). *)
Module Mesh.
Record t : Type := mk {
  position : Vector3.t;
  rotation : Vector3.t;
  rotationQuaternion : option Quaternion.t
}.
End Mesh.

(** A wheel mesh: its local position and rotation. *)
Module Wheel.
Record t : Type := mk { position : Vector3.t; rotation : Vector3.t }.
End Wheel.

Record Suspension : Type := mkSuspension {
  compression : R;
  velocity : R;
  force : R
}.

Record WheelRaycast : Type := mkWheelRaycast {
  ray : Ray.t;
  lastHitPoint : option Vector3.t;
  lastHitNormal : option Vector3.t;
  suspension : Suspension
}.

(** The mutable fields of a [Vehicle]. [rotation] is the heading; the
    Havok bodies are only written to, so of the physics set-up the model
    keeps whether [chassisBody] is there. With a chassis body the engine
    moves the mesh between frames; the vehicle's own code then leaves the
    mesh alone, and so does the model. *)
Record Vehicle : Type := mkVehicle {
  speed : R;
  steeringAngle : R;
  rotation : R;
  mesh : Mesh.t;
  wheelMeshes : list Wheel.t;
  wheelRaycasts : list WheelRaycast;
  cameraMode : CameraMode;
  controls : Controls;
  chassisBody : bool
}.

Definition set_speed (a : R) (v : Vehicle) : Vehicle :=
  mkVehicle a (steeringAngle v) (rotation v) (mesh v) (wheelMeshes v)
            (wheelRaycasts v) (cameraMode v) (controls v) (chassisBody v).

Definition set_steeringAngle (a : R) (v : Vehicle) : Vehicle :=
  mkVehicle (speed v) a (rotation v) (mesh v) (wheelMeshes v)
            (wheelRaycasts v) (cameraMode v) (controls v) (chassisBody v).

Definition set_rotation (a : R) (v : Vehicle) : Vehicle :=
  mkVehicle (speed v) (steeringAngle v) a (mesh v) (wheelMeshes v)
            (wheelRaycasts v) (cameraMode v) (controls v) (chassisBody v).

Definition set_mesh (m : Mesh.t) (v : Vehicle) : Vehicle :=
  mkVehicle (speed v) (steeringAngle v) (rotation v) m (wheelMeshes v)
            (wheelRaycasts v) (cameraMode v) (controls v) (chassisBody v).

Definition set_wheelMeshes (ws : list Wheel.t) (v : Vehicle) : Vehicle :=
  mkVehicle (speed v) (steeringAngle v) (rotation v) (mesh v) ws
            (wheelRaycasts v) (cameraMode v) (controls v) (chassisBody v).

Definition set_wheelRaycasts (rs : list WheelRaycast) (v : Vehicle) : Vehicle :=
  mkVehicle (speed v) (steeringAngle v) (rotation v) (mesh v) (wheelMeshes v)
            rs (cameraMode v) (controls v) (chassisBody v).

Definition set_cameraMode (c : CameraMode) (v : Vehicle) : Vehicle :=
  mkVehicle (speed v) (steeringAngle v) (rotation v) (mesh v) (wheelMeshes v)
            (wheelRaycasts v) c (controls v) (chassisBody v).

Definition set_controls (c : Controls) (v : Vehicle) : Vehicle :=
  mkVehicle (speed v) (steeringAngle v) (rotation v) (mesh v) (wheelMeshes v)
            (wheelRaycasts v) (cameraMode v) c (chassisBody v).

(** *** [updateSteering] *)

(** The factor that reduces the steering angle at high speeds. *)
Definition speedFactor (v : Vehicle) : R :=
  Rmin 1 (1 - (Rabs (speed v) / maxSpeed) * 0.5).

Definition set_rotation_y (a : R) (w : Wheel.t) : Wheel.t :=
  Wheel.mk (Wheel.position w) (Vector3.set_y a (Wheel.rotation w)).

(** The angular velocity that the source sets on the Havok wheel bodies
    goes to the engine and is not read back. *)
Definition updateSteering (v : Vehicle) : Vehicle :=
  (* Reset steering angle towards center *)
  let v :=
    if negb (left (controls v)) && negb (right (controls v)) then
      if Rgt_dec (steeringAngle v) 0 then
        set_steeringAngle (Rmax 0 (steeringAngle v - turnSpeed / 2)) v
      else if Rlt_dec (steeringAngle v) 0 then
        set_steeringAngle (Rmin 0 (steeringAngle v + turnSpeed / 2)) v
      else v
    else v in
  (* Apply steering input *)
  let v :=
    if left (controls v) then
      set_steeringAngle (Rmax (- maxSteeringAngle) (steeringAngle v - turnSpeed)) v
    else v in
  let v :=
    if right (controls v) then
      set_steeringAngle (Rmin maxSteeringAngle (steeringAngle v + turnSpeed)) v
    else v in
  (* Reduce max steering angle at high speeds *)
  let effectiveSteeringAngle := steeringAngle v * speedFactor v in
  (* Rotate front wheels *)
  if decide (2 <= List.length (wheelMeshes v))%nat then
    set_wheelMeshes
      (alter (set_rotation_y effectiveSteeringAngle) 1%nat
         (alter (set_rotation_y effectiveSteeringAngle) 0%nat (wheelMeshes v))) v
  else v.

(** *** [updateSpeed] *)

(** The damping and the torque that the source sets on the Havok wheel
    bodies go to the engine and are not read back; [handbrake] does nothing
    else than set such a damping. *)
Definition updateSpeed (v : Vehicle) : Vehicle :=
  (* Apply brakes *)
  if brake (controls v) then
    if Rgt_dec (speed v) 0 then
      set_speed (Rmax 0 (speed v - brakeForce)) v
    else if Rlt_dec (speed v) 0 then
      set_speed (Rmin 0 (speed v + brakeForce)) v
    else v
  else
  (* Apply acceleration *)
  if forward (controls v) then
    let accelerationFactor := 1 - Rmin 0.7 (Rabs (speed v) / maxSpeed) in
    set_speed (Rmin maxSpeed (speed v + acceleration * accelerationFactor)) v
  else if backward (controls v) then
    (* Limit reverse speed to half of max speed *)
    set_speed (Rmax (- maxSpeed / 2) (speed v - acceleration)) v
  else
    (* Apply natural deceleration *)
    if Rgt_dec (speed v) 0 then
      set_speed (Rmax 0 (speed v - deceleration)) v
    else if Rlt_dec (speed v) 0 then
      set_speed (Rmin 0 (speed v + deceleration)) v
    else v.

(** What the engine shows the vehicle during one frame: the scene that
    answers ray picks, [window.environment] (absent or present), and for the
    wheel of each index its absolute position and the world direction of its
    down vector. *)
Record Frame : Type := mkFrame {
  scene : Scene;
  window_environment : option Environment;
  wheel_getAbsolutePosition : nat -> Vector3.t;
  wheel_worldDownDirection : nat -> Vector3.t
}.

Section Engine.

Context `{Babylon}.

(** *** [updateWheelRaycasts] *)

Definition updateWheelRaycast (f : Frame) (i : nat) (raycast : WheelRaycast)
  : WheelRaycast :=
  (* Update ray position and direction *)
  let wheelPos := wheel_getAbsolutePosition f i in
  let ray :=
    Ray.mk (Vector3.mk (Vector3.x wheelPos) (Vector3.y wheelPos) (Vector3.z wheelPos))
           (wheel_worldDownDirection f i) (Ray.length (ray raycast)) in
  (* Cast the ray *)
  match pickWithRay (scene f) ray with
  | Hit pickedPoint normal =>
      let hitDistance := Vector3_Distance (Ray.origin ray) pickedPoint in
      let rayLength := suspensionRestLength + wheelRadius in
      let compression := Rmax 0 (rayLength - hitDistance) in
      (* the old compression is read after the new one is stored *)
      let oldCompression := compression in
      mkWheelRaycast ray (Some pickedPoint) (Some normal)
        (mkSuspension compression (compression - oldCompression)
                      (suspensionStiffness * compression))
  | NoHit =>
      (* Wheel is in the air *)
      mkWheelRaycast ray None None (mkSuspension 0 0 0)
  end.

Definition updateWheelRaycasts (f : Frame) (v : Vehicle) : Vehicle :=
  set_wheelRaycasts (imap (updateWheelRaycast f) (wheelRaycasts v)) v.

(** *** [updateSuspension] *)

Definition set_position_y (a : R) (w : Wheel.t) : Wheel.t :=
  Wheel.mk (Vector3.set_y a (Wheel.position w)) (Wheel.rotation w).

(** A wheel without a raycast of its index makes the source throw; every
    vehicle that [spawn] builds has four of each, and no step changes the
    two lengths. *)
Definition updateSuspension (v : Vehicle) : Vehicle :=
  set_wheelMeshes
    (imap (fun i wheel =>
             match wheelRaycasts v !! i with
             | Some raycast =>
                 match lastHitPoint raycast with
                 | Some _ =>
                     let compressionRatio :=
                       compression (suspension raycast) / suspensionTravel in
                     let suspensionOffset := compressionRatio * suspensionTravel in
                     set_position_y (wheelRadius - suspensionOffset) wheel
                 | None =>
                     (* Wheel is in the air, reset to rest position *)
                     set_position_y wheelRadius wheel
                 end
             | None => wheel
             end) (wheelMeshes v)) v.

(** *** [updateWheels] *)

Definition add_rotation_x (a : R) (w : Wheel.t) : Wheel.t :=
  Wheel.mk (Wheel.position w)
           (Vector3.set_x (Vector3.x (Wheel.rotation w) + a) (Wheel.rotation w)).

Definition updateWheels (v : Vehicle) : Vehicle :=
  (* Rotate wheels based on speed *)
  let wheelRotation := speed v * 0.1 in
  set_wheelMeshes (add_rotation_x wheelRotation <$> wheelMeshes v) v.

(** *** [adjustToTerrain] *)

Definition set_mesh_position (p : Vector3.t) (v : Vehicle) : Vehicle :=
  set_mesh (Mesh.mk p (Mesh.rotation (mesh v)) (Mesh.rotationQuaternion (mesh v))) v.

Definition set_mesh_rotation (r : Vector3.t) (v : Vehicle) : Vehicle :=
  set_mesh (Mesh.mk (Mesh.position (mesh v)) r (Mesh.rotationQuaternion (mesh v))) v.

Definition set_mesh_rotationQuaternion (q : option Quaternion.t) (v : Vehicle)
  : Vehicle :=
  set_mesh (Mesh.mk (Mesh.position (mesh v)) (Mesh.rotation (mesh v)) q) v.

(** The pitch and roll part: the quaternion of the plane through the four
    wheel hit points, stored at once or approached by a tenth. *)
Definition adjustPitchAndRoll (p0 p1 p2 p3 : Vector3.t) (v : Vehicle) : Vehicle :=
  (* Calculate normal vector from wheel hit points *)
  let frontMidpoint := Vector3_Lerp p0 p1 0.5 in
  let rearMidpoint := Vector3_Lerp p2 p3 0.5 in
  let leftMidpoint := Vector3_Lerp p0 p2 0.5 in
  let rightMidpoint := Vector3_Lerp p1 p3 0.5 in
  (* Calculate forward and right vectors *)
  let forwardVector := Vector3_normalize (Vector3_subtract rearMidpoint frontMidpoint) in
  let rightVector := Vector3_normalize (Vector3_subtract leftMidpoint rightMidpoint) in
  (* Calculate up vector (normal to the plane) *)
  let upVector := Vector3_normalize (Vector3_Cross forwardVector rightVector) in
  let rotationQuaternion := Quaternion_FromXYZAxes rightVector upVector forwardVector in
  (* Apply rotation with smoothing *)
  match Mesh.rotationQuaternion (mesh v) with
  | None => set_mesh_rotationQuaternion (Some rotationQuaternion) v
  | Some q =>
      set_mesh_rotationQuaternion (Some (Quaternion_Slerp q rotationQuaternion 0.1)) v
  end.

Definition adjustToTerrain (f : Frame) (v : Vehicle) : Vehicle :=
  (* Check if environment is available *)
  match window_environment f with
  | Some environment =>
      (* Get the height at the vehicle's position *)
      let height :=
        getHeightAtPosition environment
          (Vector3.x (Mesh.position (mesh v))) (Vector3.z (Mesh.position (mesh v))) in
      (* Adjust the vehicle's height *)
      match height with
      | Some height =>
          let targetY := height + wheelRadius in
          let v := set_mesh_position (Vector3.set_y targetY (Mesh.position (mesh v))) v in
          (* Adjust the vehicle's pitch and roll based on terrain *)
          match wheelRaycasts v with
          | r0 :: r1 :: r2 :: r3 :: _ =>
              match lastHitPoint r0, lastHitPoint r1, lastHitPoint r2, lastHitPoint r3 with
              | Some p0, Some p1, Some p2, Some p3 => adjustPitchAndRoll p0 p1 p2 p3 v
              | _, _, _, _ => v
              end
          | _ => v
          end
      | None => v
      end
  | None => v
  end.

(** *** [updateBasicPhysics] *)

Definition updateBasicPhysics (f : Frame) (v : Vehicle) : Vehicle :=
  if Req_dec_T (speed v) 0 then v
  else
    (* Calculate turn radius based on steering angle *)
    let turnRadius := wheelBase / sin (Rabs (steeringAngle v) + 0.0001) in
    (* Calculate angular velocity *)
    let angularVelocity := speed v / turnRadius * Math.sign (steeringAngle v) in
    (* Update rotation *)
    let v := set_rotation (rotation v + angularVelocity) v in
    (* Update position *)
    let moveX := sin (rotation v) * speed v in
    let moveZ := cos (rotation v) * speed v in
    (* Apply movement *)
    let p := Mesh.position (mesh v) in
    let v := set_mesh_position (Vector3.set_x (Vector3.x p + moveX) p) v in
    let p := Mesh.position (mesh v) in
    let v := set_mesh_position (Vector3.set_z (Vector3.z p + moveZ) p) v in
    (* Apply rotation *)
    let v := set_mesh_rotation (Vector3.set_y (rotation v) (Mesh.rotation (mesh v))) v in
    (* Adjust to terrain height *)
    adjustToTerrain f v.

(** *** [update]: one frame *)

Definition update (f : Frame) (v : Vehicle) : Vehicle :=
  let v := updateSteering v in
  let v := updateSpeed v in
  let v := updateWheelRaycasts f v in
  let v := updateSuspension v in
  let v := updateWheels v in
  (* Update vehicle position and rotation if using basic physics *)
  if chassisBody v then v else updateBasicPhysics f v.

(** *** [reset] *)

Definition reset (v : Vehicle) : Vehicle :=
  (* Reset position and rotation *)
  let v := set_mesh_position Vector3.Zero v in
  let v := set_mesh_rotation Vector3.Zero v in
  (* Reset speed and steering *)
  let v := set_speed 0 v in
  let v := set_steeringAngle 0 v in
  (* Reset controls *)
  set_controls
    (mkControls false false false false false false (cameraToggle (controls v))) v.

End Engine.

(** ** Keys and cameras *)

(** [String.prototype.toLowerCase] on the ASCII letters. *)
Definition toLowerCase_ascii (c : ascii) : ascii :=
  let n := nat_of_ascii c in
  if (Nat.leb 65 n && Nat.leb n 90)%bool then ascii_of_nat (n + 32) else c.

Fixpoint toLowerCase (s : string) : string :=
  match s with
  | EmptyString => EmptyString
  | String c s' => String (toLowerCase_ascii c) (toLowerCase s')
  end.

(** [setActiveCamera] as far as the vehicle's own state goes. *)
Definition toggleCamera (v : Vehicle) : Vehicle :=
  match cameraMode v with
  | follow => set_cameraMode chase v
  | chase => set_cameraMode firstPerson v
  | firstPerson => set_cameraMode follow v
  end.

Definition set_forward (b : bool) (c : Controls) : Controls :=
  mkControls b (backward c) (left c) (right c) (brake c) (handbrake c) (cameraToggle c).
Definition set_backward (b : bool) (c : Controls) : Controls :=
  mkControls (forward c) b (left c) (right c) (brake c) (handbrake c) (cameraToggle c).
Definition set_left (b : bool) (c : Controls) : Controls :=
  mkControls (forward c) (backward c) b (right c) (brake c) (handbrake c) (cameraToggle c).
Definition set_right (b : bool) (c : Controls) : Controls :=
  mkControls (forward c) (backward c) (left c) b (brake c) (handbrake c) (cameraToggle c).
Definition set_brake (b : bool) (c : Controls) : Controls :=
  mkControls (forward c) (backward c) (left c) (right c) b (handbrake c) (cameraToggle c).
Definition set_handbrake (b : bool) (c : Controls) : Controls :=
  mkControls (forward c) (backward c) (left c) (right c) (brake c) b (cameraToggle c).
Definition set_cameraToggle (b : bool) (c : Controls) : Controls :=
  mkControls (forward c) (backward c) (left c) (right c) (brake c) (handbrake c) b.

Definition handleKeyDown (key : string) (v : Vehicle) : Vehicle :=
  let k := toLowerCase key in
  if String.eqb k "w" then set_controls (set_forward true (controls v)) v
  else if String.eqb k "s" then set_controls (set_backward true (controls v)) v
  else if String.eqb k "a" then set_controls (set_left true (controls v)) v
  else if String.eqb k "d" then set_controls (set_right true (controls v)) v
  else if String.eqb k " " then set_controls (set_brake true (controls v)) v
  else if String.eqb k "shift" then set_controls (set_handbrake true (controls v)) v
  else if String.eqb k "c" then
    if cameraToggle (controls v) then v
    else toggleCamera (set_controls (set_cameraToggle true (controls v)) v)
  else v.

Definition handleKeyUp (key : string) (v : Vehicle) : Vehicle :=
  let k := toLowerCase key in
  if String.eqb k "w" then set_controls (set_forward false (controls v)) v
  else if String.eqb k "s" then set_controls (set_backward false (controls v)) v
  else if String.eqb k "a" then set_controls (set_left false (controls v)) v
  else if String.eqb k "d" then set_controls (set_right false (controls v)) v
  else if String.eqb k " " then set_controls (set_brake false (controls v)) v
  else if String.eqb k "shift" then set_controls (set_handbrake false (controls v)) v
  else if String.eqb k "c" then set_controls (set_cameraToggle false (controls v)) v
  else v.

(** ** The life of a vehicle *)

(** The wheel that [createWheels] puts at a position. *)
Definition createWheel (p : Vector3.t) : Wheel.t :=
  Wheel.mk p (Vector3.mk 0 0 (PI / 2)).

(** The entry that [createWheelRaycast] pushes for a wheel at a position. *)
Definition createWheelRaycast (p : Vector3.t) : WheelRaycast :=
  let raycastLength := suspensionRestLength + suspensionTravel + wheelRadius in
  mkWheelRaycast (Ray.mk p (Vector3.mk 0 (-1) 0) raycastLength) None None
                 (mkSuspension 0 0 0).

Definition wheelPositions : list Vector3.t :=
  [ Vector3.mk (- wheelTrack / 2) wheelRadius (wheelBase / 2);   (* Front left *)
    Vector3.mk (wheelTrack / 2) wheelRadius (wheelBase / 2);     (* Front right *)
    Vector3.mk (- wheelTrack / 2) wheelRadius (- wheelBase / 2); (* Rear left *)
    Vector3.mk (wheelTrack / 2) wheelRadius (- wheelBase / 2) ]. (* Rear right *)

(** The vehicle when the constructor and [init] are done: [havok] tells
    whether the Havok set-up made a [chassisBody] or the basic physics is
    in use. [init] is taken to have run to its end, with a wheel mesh and a
    wheel raycast made at each of the four wheel positions. *)
Definition spawn (havok : bool) : Vehicle :=
  mkVehicle 0 0 0
    (Mesh.mk Vector3.Zero Vector3.Zero None)
    (createWheel <$> wheelPositions)
    (createWheelRaycast <$> wheelPositions)
    follow
    (mkControls false false false false false false false)
    havok.

(** What happens to a vehicle: a key goes down or up, or the scene renders
    a frame. The page's own key observer calls [reset] on the key [r] when
    [window.vehicle] holds the vehicle; [step] takes it to hold it, so the
    drives with no [r] in them are those of a page where it does not. *)
Inductive Event : Type :=
| KeyDown (key : string)
| KeyUp (key : string)
| BeforeRender (f : Frame).

Section Run.

Context `{Babylon}.

Definition step (v : Vehicle) (e : Event) : Vehicle :=
  match e with
  | KeyDown key => handleKeyDown key (if String.eqb key "r" then reset v else v)
  | KeyUp key => handleKeyUp key v
  | BeforeRender f => update f v
  end.

Definition run (havok : bool) (events : list Event) : Vehicle :=
  fold_left step events (spawn havok).

(** [n] frames in a row, the [i]-th of them showing [frames i]. *)
Fixpoint ticks (frames : nat -> Frame) (n : nat) (v : Vehicle) : Vehicle :=
  match n with
  | O => v
  | S n' => update (frames n') (ticks frames n' v)
  end.

End Run.

(** * Notions for the statements *)

(** ** What the steps compute *)

(** The speed that braking makes of a speed: towards zero by [brakeForce],
    stopping at zero. *)
Definition braked (s : R) : R :=
  if Rgt_dec s 0 then Rmax 0 (s - brakeForce)
  else if Rlt_dec s 0 then Rmin 0 (s + brakeForce)
  else s.

(** The steering angle that a frame without [left] and [right] makes of a
    steering angle: towards zero by half of [turnSpeed], stopping at zero. *)
Definition centred (a : R) : R :=
  if Rgt_dec a 0 then Rmax 0 (a - turnSpeed / 2)
  else if Rlt_dec a 0 then Rmin 0 (a + turnSpeed / 2)
  else a.

(** The heading after the integrator has turned a moving vehicle. *)
Definition turned (v : Vehicle) : R :=
  let turnRadius := wheelBase / sin (Rabs (steeringAngle v) + 0.0001) in
  let angularVelocity := speed v / turnRadius * Math.sign (steeringAngle v) in
  rotation v + angularVelocity.

(** The angle that [updateSteering] gives to the front wheels of a vehicle:
    its constant [effectiveSteeringAngle], for the steering angle as the
    steering input has left it. *)
Definition effectiveSteeringAngle (v : Vehicle) : R :=
  steeringAngle (updateSteering v) * speedFactor v.

(** The ray that [getHeightAtPosition] casts at a place. *)
Definition heightRay (x z : R) : Ray.t :=
  Ray.mk (Vector3.mk x 100 z) (Vector3.mk 0 (-1) 0) 200.

Section Before_physics.

Context `{Babylon}.

(** The vehicle as the first five sub-steps of [update] leave it. *)
Definition beforePhysics (f : Frame) (v : Vehicle) : Vehicle :=
  updateWheels (updateSuspension (updateWheelRaycasts f (updateSpeed (updateSteering v)))).

End Before_physics.

(** ** What holds of a vehicle *)

(** The speed is between the reverse cap and the forward cap. *)
Definition speed_in_range (v : Vehicle) : Prop :=
  - maxSpeed / 2 <= speed v <= maxSpeed.

(** The steering angle is within the steering lock. *)
Definition steering_in_range (v : Vehicle) : Prop :=
  - maxSteeringAngle <= steeringAngle v <= maxSteeringAngle.

(** No driving input: none of the six controls is set. *)
Definition idle (c : Controls) : bool :=
  negb (forward c || backward c || left c || right c || brake c || handbrake c).

(** At least one of the first four wheel raycasts is missing or holds no
    hit point: the pitch and roll part of the terrain follower is skipped. *)
Definition some_wheel_in_the_air (v : Vehicle) : Prop :=
  exists i : nat, (i < 4)%nat /\
    match wheelRaycasts v !! i with
    | Some raycast => lastHitPoint raycast = None
    | None => True
    end.

(** ** The spec's words, where they part from the code *)

(** The effective steering angle in the spec's words: the stored angle
    scaled by [max(0, 1 - 0.5 * |speed| / maxSpeed)]. *)
Definition spec_effectiveSteeringAngle (v : Vehicle) : R :=
  steeringAngle v * Rmax 0 (1 - 0.5 * Rabs (speed v) / maxSpeed).

(** The heading after a turn in the spec's words: the bicycle-model
    formulas on the effective steering angle. *)
Definition spec_turned (v : Vehicle) : R :=
  let turnRadius := wheelBase / sin (Rabs (spec_effectiveSteeringAngle v) + 0.0001) in
  let omega := speed v / turnRadius * Math.sign (spec_effectiveSteeringAngle v) in
  rotation v + omega.

(** ** An engine, a scene and vehicles to run examples on *)

(** The vectors are the usual ones. The two quaternion functions keep the
    up vector and interpolate by components; they stand in for the engine's
    arithmetic, which the examples never reach: every ray they cast misses. *)
#[export] Instance sampleEngine : Babylon := {|
  Vector3_Lerp a b t :=
    Vector3.mk (Vector3.x a + (Vector3.x b - Vector3.x a) * t)
               (Vector3.y a + (Vector3.y b - Vector3.y a) * t)
               (Vector3.z a + (Vector3.z b - Vector3.z a) * t);
  Vector3_subtract a b :=
    Vector3.mk (Vector3.x a - Vector3.x b) (Vector3.y a - Vector3.y b)
               (Vector3.z a - Vector3.z b);
  Vector3_normalize a :=
    let len := sqrt (Vector3.x a * Vector3.x a + Vector3.y a * Vector3.y a
                     + Vector3.z a * Vector3.z a) in
    if Req_dec_T len 0 then a
    else Vector3.mk (Vector3.x a / len) (Vector3.y a / len) (Vector3.z a / len);
  Vector3_Cross a b :=
    Vector3.mk (Vector3.y a * Vector3.z b - Vector3.z a * Vector3.y b)
               (Vector3.z a * Vector3.x b - Vector3.x a * Vector3.z b)
               (Vector3.x a * Vector3.y b - Vector3.y a * Vector3.x b);
  Vector3_Distance a b :=
    sqrt ((Vector3.x a - Vector3.x b) * (Vector3.x a - Vector3.x b)
          + (Vector3.y a - Vector3.y b) * (Vector3.y a - Vector3.y b)
          + (Vector3.z a - Vector3.z b) * (Vector3.z a - Vector3.z b));
  Quaternion_FromXYZAxes _ up _ :=
    Quaternion.mk (Vector3.x up) (Vector3.y up) (Vector3.z up) 0;
  Quaternion_Slerp p q t :=
    Quaternion.mk (Quaternion.x p + (Quaternion.x q - Quaternion.x p) * t)
                  (Quaternion.y p + (Quaternion.y q - Quaternion.y p) * t)
                  (Quaternion.z p + (Quaternion.z q - Quaternion.z p) * t)
                  (Quaternion.w p + (Quaternion.w q - Quaternion.w p) * t)
|}.

(** A scene with nothing in it: every ray misses. *)
Definition emptyScene : Scene := {| pickWithRay := fun _ => NoHit |}.

(** A frame of the empty scene, with an environment. *)
Definition emptyFrame : Frame :=
  mkFrame emptyScene (Some {| env_scene := emptyScene |})
          (fun _ => Vector3.Zero) (fun _ => Vector3.mk 0 (-1) 0).

(** The keys [w] and [d] held down on a freshly spawned vehicle that uses
    the basic physics. *)
Definition turningRight : Vehicle :=
  handleKeyDown "d" (handleKeyDown "w" (spawn false)).

(** The start of a right turn: [w] and [d] go down and one frame of the
    empty scene renders. *)
Definition rightTurnStart : list Event :=
  [KeyDown "w"; KeyDown "d"; BeforeRender emptyFrame].

(** * More of the code *)

(** ** The read-outs of the vehicle *)

(** [getSpeedKmh]: the speed shown to the driver. *)
Definition getSpeedKmh (v : Vehicle) : R :=
  Rabs (speed v) * 20. (* Arbitrary conversion to km/h *)

(** [getPosition]. *)
Definition getPosition (v : Vehicle) : Vector3.t := Mesh.position (mesh v).

(** ** The part of [UI.update] that reads the vehicle *)

Module UI.

Definition mapSize : R := 2000.

(** [mapCoordinatesToMinimap]: world coordinates to the pixels of the
    minimap, as the pair of [x] and [y]. *)
Definition mapCoordinatesToMinimap (x z : R) : R * R :=
  (* The minimap is 220px x 220px *)
  let minimapSize := 220 in
  let mapHalfSize := mapSize / 2 in
  (* Calculate normalized position (-1 to 1) *)
  let normalizedX := x / mapHalfSize in
  let normalizedZ := z / mapHalfSize in
  (* Convert to minimap coordinates *)
  let minimapX := normalizedX * (minimapSize / 2) in
  let minimapZ := normalizedZ * (minimapSize / 2) in
  (minimapX, minimapZ).

(** The number that the speedometer shows: [Math.floor] of the speed. *)
Definition speedometer (v : Vehicle) : Z := Int_part (getSpeedKmh v).

(** The letter of the gear indicator. *)
Definition gearIndicator (v : Vehicle) : string :=
  let speed_kmh := getSpeedKmh v in
  if Req_dec_T speed_kmh 0 then "N"
  else if Rgt_dec (speed v) 0 then "D"
  else "R".

(** The text of the camera mode indicator. *)
Definition cameraModeIndicator (v : Vehicle) : string :=
  match cameraMode v with
  | follow => "Follow Camera"
  | chase => "Chase Camera"
  | firstPerson => "First Person"
  end.

(** Where the player indicator goes on the minimap. *)
Definition playerIndicator (v : Vehicle) : R * R :=
  let vehiclePos := getPosition v in
  mapCoordinatesToMinimap (Vector3.x vehiclePos) (Vector3.z vehiclePos).

(** The rotation of the player's direction arrow and of the compass
    needle. *)
Definition playerDirection (v : Vehicle) : R := - rotation v.
Definition compassNeedle (v : Vehicle) : R := rotation v.

End UI.

(** ** Notions for the statements about driving *)

(** The events of a drive in which nobody presses the key [r]. *)
Definition no_reset (events : list Event) : Prop :=
  Forall (fun e => e <> KeyDown "r") events.

(** A wheel sits on the spring of a raycast: it is pushed up from
    [wheelRadius] by the compression of the raycast, which is not negative,
    is zero when the ray has hit nothing, and comes with no suspension
    velocity and with the force of the compression. *)
Definition wheel_on_its_spring (wheel : Wheel.t) (raycast : WheelRaycast) : Prop :=
  Vector3.y (Wheel.position wheel)
  = wheelRadius - compression (suspension raycast) /\
  0 <= compression (suspension raycast) /\
  velocity (suspension raycast) = 0 /\
  force (suspension raycast)
  = suspensionStiffness * compression (suspension raycast) /\
  (lastHitPoint raycast = None -> compression (suspension raycast) = 0).

(** The keys that drive, as [handleKeyDown] spells them. *)
Definition drivingKeys : list string :=
  ["w"%string; "s"%string; "a"%string; "d"%string; " "%string; "shift"%string].

(** One press and release of a key. *)
Definition tap (key : string) (v : Vehicle) : Vehicle :=
  handleKeyUp key (handleKeyDown key v).

(** The yaw of the mesh is the heading, and the mesh has no other Euler
    angle. *)
Definition mesh_faces_heading (v : Vehicle) : Prop :=
  Mesh.rotation (mesh v) = Vector3.mk 0 (rotation v) 0.

(** A scene with flat ground at a height: every ray hits at its own [x] and
    [z], at that height, with the normal pointing up. *)
Definition flatScene (height : R) : Scene :=
  {| pickWithRay := fun r =>
       Hit (Vector3.mk (Vector3.x (Ray.origin r)) height (Vector3.z (Ray.origin r)))
           (Vector3.mk 0 1 0) |}.

(** A frame of flat ground at a height, with an environment. *)
Definition flatFrame (height : R) : Frame :=
  mkFrame (flatScene height) (Some {| env_scene := flatScene height |})
          (fun _ => Vector3.Zero) (fun _ => Vector3.mk 0 (-1) 0).

(** A frame of the empty scene before the environment is there. *)
Definition bareFrame : Frame :=
  mkFrame emptyScene None (fun _ => Vector3.Zero) (fun _ => Vector3.mk 0 (-1) 0).

(** ** The countryside of [environment.js] *)

Module Countryside.

Definition countrysideCenter : Vector3.t := Vector3.mk 500 0 500.

(** [isAwayFromRoads], over the positions of the road meshes. *)
Fixpoint isAwayFromRoads (roadMeshes : list Vector3.t) (x z minDistance : R)
  : bool :=
  match roadMeshes with
  | [] => true
  | roadPos :: rest =>
      let distance :=
        sqrt ((x - Vector3.x roadPos) ^ 2 + (z - Vector3.z roadPos) ^ 2) in
      if Rlt_dec distance minDistance then false
      else isAwayFromRoads rest x z minDistance
  end.

(** [createTree] pushes two meshes: the trunk and the leaves. *)
Definition createTree (x z : R) (treeMeshes : list Vector3.t) : list Vector3.t :=
  let trunk := Vector3.mk x 2.5 z in
  let leaves := Vector3.mk x 7 z in
  treeMeshes ++ [trunk; leaves].

(** The tree loop of [createCountrysideArea], with [treeCount] rounds of the
    loop still to run. [Math.random] is a stream, [k] the number of values
    taken from it so far; the loop takes two per round. *)
Fixpoint plantTrees (random : nat -> R) (roadMeshes : list Vector3.t)
         (treeCount k : nat) (treeMeshes : list Vector3.t) : list Vector3.t :=
  match treeCount with
  | O => treeMeshes
  | S treeCount' =>
      let areaSize := 1000 in
      (* Generate random position within countryside area *)
      let angle := random k * PI * 2 in
      let distance := random (S k) * areaSize / 2 in
      let x := Vector3.x countrysideCenter + cos angle * distance in
      let z := Vector3.z countrysideCenter + sin angle * distance in
      (* Check if position is away from roads *)
      let treeMeshes :=
        if isAwayFromRoads roadMeshes x z 30 then createTree x z treeMeshes
        else treeMeshes in
      plantTrees random roadMeshes treeCount' (S (S k)) treeMeshes
  end.

(** The trees that [createCountrysideArea] plants. *)
Definition createCountrysideTrees (random : nat -> R) (roadMeshes : list Vector3.t)
           (k : nat) (treeMeshes : list Vector3.t) : list Vector3.t :=
  let treeCount := 300%nat in
  plantTrees random roadMeshes treeCount k treeMeshes.

(** The ground distance between two places. *)
Definition groundDistance (p q : Vector3.t) : R :=
  sqrt ((Vector3.x p - Vector3.x q) ^ 2 + (Vector3.z p - Vector3.z q) ^ 2).

End Countryside.

(** A stream of random numbers that always answers one half, and a single
    road mesh, to run examples on. *)
Definition steadyRandom : nat -> R := fun _ => 0.5.
Definition oneRoad : list Vector3.t := [Vector3.mk 300 0.05 300].

(** ** The day and night cycle of [lighting.js] *)

Module DayNight.

Record Color3 : Type := mkColor3 { r : R; g : R; b : R }.

Record Color4 : Type := mkColor4 { r4 : R; g4 : R; b4 : R; a4 : R }.

(** [dayNightController]: [time] runs from 0 to 1. *)
Record Controller : Type := mkController {
  time : R;
  cycleSpeed : R;
  paused : bool
}.

Record Light : Type := mkLight {
  direction : Vector3.t;
  intensity : R;
  diffuse : Color3;
  specular : Color3
}.

(** The controller, [this.lights] and [scene.clearColor] (absent or
    present). *)
Record State : Type := mkState {
  controller : Controller;
  lights : list Light;
  clearColor : option Color4
}.

(** The controller that [createDayNightCycle] makes. *)
Definition newController : Controller := mkController 0 0.0001 false.

(** The colour of the sun light at a height of the sun. *)
Definition sunColor (sunHeight : R) : Color3 :=
  if Rgt_dec sunHeight 0.2 then
    (* Daytime - warm sunlight *)
    mkColor3 1 0.95 0.8
  else if Rgt_dec sunHeight 0 then
    (* Sunrise/sunset - orange/red *)
    let t := sunHeight / 0.2 in
    mkColor3 1 (0.5 + t * 0.45) (0.3 + t * 0.5)
  else
    (* Night - blue moonlight *)
    mkColor3 0.2 0.2 0.5.

(** The colour of the sky at a height of the sun. *)
Definition skyColor (sunHeight : R) : Color4 :=
  if Rgt_dec sunHeight 0.2 then
    (* Daytime - blue sky *)
    mkColor4 0.5 0.8 0.9 1
  else if Rgt_dec sunHeight 0 then
    (* Sunrise/sunset - orange/red sky *)
    let t := sunHeight / 0.2 in
    mkColor4 0.8 (0.5 + t * 0.3) (0.5 + t * 0.4) 1
  else if Rgt_dec sunHeight (-0.2) then
    (* Dusk/dawn - dark blue *)
    let t := (sunHeight + 0.2) / 0.2 in
    mkColor4 (0.1 + t * 0.7) (0.1 + t * 0.4) (0.3 + t * 0.2) 1
  else
    (* Night - dark *)
    mkColor4 0.05 0.05 0.1 1.

Section Cycle.

Context `{Babylon}.

(** [Vector3.scale] of the engine. *)
Variable Vector3_scale : Vector3.t -> R -> Vector3.t.

(** What the callback does to the light of an index: the sun light at 0,
    the hemispheric light at 1, a street light from 2 on. *)
Definition adjustLight (sunHeight : R) (sunDirection : Vector3.t)
           (i : nat) (light : Light) : Light :=
  match i with
  | O =>
      (* Adjust light intensity based on time of day *)
      let intensity := Rmax 0.1 sunHeight in
      mkLight (Vector3_scale sunDirection (-1)) intensity
              (sunColor sunHeight) (sunColor sunHeight)
  | S O =>
      mkLight (direction light) (0.2 + Rmax 0 sunHeight * 0.3)
              (diffuse light) (specular light)
  | _ =>
      (* Street lights are brighter at night *)
      mkLight (direction light) (Rmax 0.1 (0.8 - sunHeight))
              (diffuse light) (specular light)
  end.

(** The height of the sun at a time of the cycle. *)
Definition sunHeightAt (time : R) : R := sin (time * PI * 2).

(** The callback that [createDayNightCycle] registers before each render. *)
Definition beforeRender (s : State) : State :=
  if paused (controller s) then s
  else
    (* Update the time *)
    let time := time (controller s) + cycleSpeed (controller s) in
    let time := if Rgt_dec time 1 then time - 1 else time in
    (* Calculate sun position *)
    let sunAngle := time * PI * 2 in
    let sunHeight := sin sunAngle in
    let sunDirection :=
      Vector3_normalize (Vector3.mk (cos sunAngle) sunHeight (sin sunAngle * 0.5)) in
    mkState (mkController time (cycleSpeed (controller s)) (paused (controller s)))
            (imap (adjustLight sunHeight sunDirection) (lights s))
            (match clearColor s with
             | Some _ => Some (skyColor sunHeight)
             | None => None
             end).

End Cycle.

End DayNight.

(** A colour component is between 0 and 1. *)
Definition component (c : R) : Prop := 0 <= c <= 1.

(** One sun light, one hemispheric light and one street light, all dark, to
    run examples on; the scale of a vector by components. *)
Definition darkLight : DayNight.Light :=
  DayNight.mkLight Vector3.Zero 0 (DayNight.mkColor3 0 0 0) (DayNight.mkColor3 0 0 0).

Definition threeLights : DayNight.State :=
  DayNight.mkState DayNight.newController [darkLight; darkLight; darkLight]
                   (Some (DayNight.mkColor4 0 0 0 1)).

Definition scaleByComponents (p : Vector3.t) (a : R) : Vector3.t :=
  Vector3.mk (Vector3.x p * a) (Vector3.y p * a) (Vector3.z p * a).

(** ** The city of [environment.js] *)

Module City.

Definition cityCenter : Vector3.t := Vector3.mk (-500) 0 (-500).

(** The remainder [a % b] of JavaScript numbers: what is left of [a] when
    the quotient is cut towards zero. *)
Definition trunc (q : R) : Z :=
  if Rle_dec 0 q then Int_part q else (- Int_part (- q))%Z.

Definition rem (a b : R) : R := a - b * IZR (trunc (a / b)).

(** A loop [for (let x = start; x < limit; x += step)] over a state, with
    fuel for its rounds. *)
Fixpoint forLoop {S : Type} (fuel : nat) (x limit step : R)
         (body : R -> S -> S) (s : S) : S :=
  match fuel with
  | O => s
  | Datatypes.S fuel' =>
      if Rlt_dec x limit then forLoop fuel' (x + step) limit step body (body x s)
      else s
  end.

(** A building mesh: its position and the sizes of its box. *)
Record Building : Type := mkBuilding {
  position : Vector3.t;
  width : R;
  height : R;
  depth : R
}.

(** The state of the construction: [buildingMeshes] and the number of
    values taken from [Math.random] so far. *)
Definition Site : Type := (list Building * nat)%type.

(** [createBuilding] pushes one mesh; it takes three random values for the
    colour and one for each of the 12 x 12 windows. *)
Definition createBuilding (x z width height depth : R) (site : Site) : Site :=
  let (buildingMeshes, k) := site in
  let building := mkBuilding (Vector3.mk x (height / 2) z) width height depth in
  (buildingMeshes ++ [building], (k + 3 + 12 * 12)%nat).

(** The loop over the buildings of a block, with [b] rounds to go. *)
Fixpoint createBuildings (random : nat -> R) (b : nat) (x z : R) (site : Site)
  : Site :=
  match b with
  | O => site
  | Datatypes.S b' =>
      let blockSize := 100 in
      let buildingMargin := 10 in
      let (buildingMeshes, k) := site in
      (* Calculate building position within the block *)
      let offsetX := (random k - 0.5) * (blockSize - buildingMargin * 2) in
      let offsetZ := (random (k + 1)%nat - 0.5) * (blockSize - buildingMargin * 2) in
      let buildingX := Vector3.x cityCenter + x + offsetX in
      let buildingZ := Vector3.z cityCenter + z + offsetZ in
      (* Create building with random dimensions *)
      let height := 10 + random (k + 2)%nat * 60 in
      let width := 10 + random (k + 3)%nat * 20 in
      let depth := 10 + random (k + 4)%nat * 20 in
      createBuildings random b' x z
        (createBuilding buildingX buildingZ width height depth
                        (buildingMeshes, (k + 5)%nat))
  end.

(** The body of the two loops of [createCityArea]: one block. *)
Definition createBlock (random : nat -> R) (x z : R) (site : Site) : Site :=
  let blockSize := 100 in
  let maxBuildingsPerBlock := 4 in
  (* Skip if this is a road intersection *)
  if Rlt_dec (rem (Rabs x) blockSize) 20 then site
  else if Rlt_dec (rem (Rabs z) blockSize) 20 then site
  else
    let (buildingMeshes, k) := site in
    (* Create buildings in this block *)
    let buildingsInBlock := (1 + Int_part (random k * maxBuildingsPerBlock))%Z in
    createBuildings random (Z.to_nat buildingsInBlock) x z
                    (buildingMeshes, Datatypes.S k).

(** [createCityArea]: the blocks of a grid. *)
Definition createCityArea (random : nat -> R) (site : Site) : Site :=
  let citySize := 800 in
  let blockSize := 100 in
  forLoop 9 (- citySize / 2 + blockSize / 2) (citySize / 2) blockSize
    (fun x site =>
       forLoop 9 (- citySize / 2 + blockSize / 2) (citySize / 2) blockSize
         (fun z site => createBlock random x z site) site)
    site.

(** The centres of the blocks along one axis, as the loops visit them. *)
Definition blockCentres : list R := [-350; -250; -150; -50; 50; 150; 250; 350].

(** A building that stands on the ground within 40 of the centre of a
    block in each direction, with the sizes that [createCityArea] draws. *)
Definition well_built (building : Building) : Prop :=
  (exists cx cz, In cx blockCentres /\ In cz blockCentres /\
     Rabs (Vector3.x (position building) - (Vector3.x cityCenter + cx)) <= 40 /\
     Rabs (Vector3.z (position building) - (Vector3.z cityCenter + cz)) <= 40) /\
  Vector3.y (position building) = height building / 2 /\
  10 <= height building < 70 /\
  10 <= width building < 30 /\
  10 <= depth building < 30.

End City.

(** * Properties *)

(** ** What each step leaves alone *)

(** Open a step and split on every test it makes; what stays is closed by
    computing the projections. *)
Ltac step_cases := repeat case_match; simpl; try reflexivity; try lra.

(** [Math.sign] by cases. *)
Lemma Math_sign_0 : Math.sign 0 = 0.
Proof. unfold Math.sign. repeat destruct Rlt_dec; lra. Qed.

Lemma Math_sign_pos a : 0 < a -> Math.sign a = 1.
Proof. intros Ha. unfold Math.sign. destruct Rlt_dec; lra. Qed.

Lemma Math_sign_neg a : a < 0 -> Math.sign a = -1.
Proof. intros Ha. unfold Math.sign. repeat destruct Rlt_dec; lra. Qed.

Section Frame_lemmas.

Context `{Babylon}.

(** The terrain step touches nothing but the mesh. *)
Lemma adjustToTerrain_speed f v : speed (adjustToTerrain f v) = speed v.
Proof. unfold adjustToTerrain, adjustPitchAndRoll. step_cases. Qed.

Lemma adjustToTerrain_steeringAngle f v :
  steeringAngle (adjustToTerrain f v) = steeringAngle v.
Proof. unfold adjustToTerrain, adjustPitchAndRoll. step_cases. Qed.

Lemma adjustToTerrain_rotation f v : rotation (adjustToTerrain f v) = rotation v.
Proof. unfold adjustToTerrain, adjustPitchAndRoll. step_cases. Qed.

Lemma adjustToTerrain_controls f v : controls (adjustToTerrain f v) = controls v.
Proof. unfold adjustToTerrain, adjustPitchAndRoll. step_cases. Qed.

Lemma adjustToTerrain_mesh_rotation f v :
  Mesh.rotation (mesh (adjustToTerrain f v)) = Mesh.rotation (mesh v).
Proof. unfold adjustToTerrain, adjustPitchAndRoll. step_cases. Qed.

Lemma adjustToTerrain_mesh_xz f v :
  Vector3.x (Mesh.position (mesh (adjustToTerrain f v)))
  = Vector3.x (Mesh.position (mesh v)) /\
  Vector3.z (Mesh.position (mesh (adjustToTerrain f v)))
  = Vector3.z (Mesh.position (mesh v)).
Proof. unfold adjustToTerrain, adjustPitchAndRoll. step_cases; auto. Qed.

Lemma updateBasicPhysics_speed f v : speed (updateBasicPhysics f v) = speed v.
Proof.
  unfold updateBasicPhysics. destruct (Req_dec_T (speed v) 0); [reflexivity|].
  now rewrite adjustToTerrain_speed.
Qed.

Lemma updateBasicPhysics_steeringAngle f v :
  steeringAngle (updateBasicPhysics f v) = steeringAngle v.
Proof.
  unfold updateBasicPhysics. destruct (Req_dec_T (speed v) 0); [reflexivity|].
  now rewrite adjustToTerrain_steeringAngle.
Qed.

Lemma updateBasicPhysics_controls f v :
  controls (updateBasicPhysics f v) = controls v.
Proof.
  unfold updateBasicPhysics. destruct (Req_dec_T (speed v) 0); [reflexivity|].
  now rewrite adjustToTerrain_controls.
Qed.

Lemma updateSteering_speed v : speed (updateSteering v) = speed v.
Proof. unfold updateSteering. step_cases. Qed.

Lemma updateSteering_controls v : controls (updateSteering v) = controls v.
Proof. unfold updateSteering. step_cases. Qed.

Lemma updateSpeed_steeringAngle v :
  steeringAngle (updateSpeed v) = steeringAngle v.
Proof. unfold updateSpeed. step_cases. Qed.

Lemma updateSpeed_controls v : controls (updateSpeed v) = controls v.
Proof. unfold updateSpeed. step_cases. Qed.

Lemma updateSteering_rest v :
  rotation (updateSteering v) = rotation v /\
  mesh (updateSteering v) = mesh v /\
  chassisBody (updateSteering v) = chassisBody v.
Proof. unfold updateSteering. step_cases; auto. Qed.

Lemma updateSpeed_rest v :
  rotation (updateSpeed v) = rotation v /\
  mesh (updateSpeed v) = mesh v /\
  chassisBody (updateSpeed v) = chassisBody v.
Proof. unfold updateSpeed. step_cases; auto. Qed.

(** [updateSpeed] reads the speed and the controls only. *)
Lemma updateSpeed_reads v w :
  speed v = speed w -> controls v = controls w ->
  speed (updateSpeed v) = speed (updateSpeed w).
Proof.
  intros Hs Hc. unfold updateSpeed. rewrite Hc, Hs. step_cases.
Qed.

(** Over a whole frame the speed is what [updateSpeed] makes of it, the
    steering angle what [updateSteering] makes of it, and the controls
    stay. *)
Lemma update_speed f v : speed (update f v) = speed (updateSpeed v).
Proof.
  assert (E : speed (updateSpeed (updateSteering v)) = speed (updateSpeed v))
    by (apply updateSpeed_reads;
        [apply updateSteering_speed | apply updateSteering_controls]).
  unfold update. case_match.
  - simpl. exact E.
  - rewrite updateBasicPhysics_speed. simpl. exact E.
Qed.

Lemma update_steeringAngle f v :
  steeringAngle (update f v) = steeringAngle (updateSteering v).
Proof.
  unfold update. case_match.
  - simpl. apply updateSpeed_steeringAngle.
  - rewrite updateBasicPhysics_steeringAngle. simpl.
    apply updateSpeed_steeringAngle.
Qed.

Lemma update_controls f v : controls (update f v) = controls v.
Proof.
  unfold update. case_match.
  - simpl. now rewrite updateSpeed_controls, updateSteering_controls.
  - rewrite updateBasicPhysics_controls. simpl.
    now rewrite updateSpeed_controls, updateSteering_controls.
Qed.

End Frame_lemmas.

(** ** Keys leave the motion alone *)

Lemma handleKeyDown_motion key v :
  speed (handleKeyDown key v) = speed v /\
  steeringAngle (handleKeyDown key v) = steeringAngle v /\
  rotation (handleKeyDown key v) = rotation v /\
  mesh (handleKeyDown key v) = mesh v.
Proof. unfold handleKeyDown, toggleCamera. step_cases; auto. Qed.

Lemma handleKeyUp_motion key v :
  speed (handleKeyUp key v) = speed v /\
  steeringAngle (handleKeyUp key v) = steeringAngle v /\
  rotation (handleKeyUp key v) = rotation v /\
  mesh (handleKeyUp key v) = mesh v.
Proof. unfold handleKeyUp. step_cases; auto. Qed.

(** ** Longitudinal dynamics *)

(** Unfold the vehicle characteristics and the clamps, and decide. *)
Ltac clamp :=
  unfold maxSpeed, acceleration, deceleration, brakeForce, turnSpeed in *;
  unfold Rmax, Rmin in *; repeat destruct Rle_dec; try lra.

Lemma accelerationFactor_bounds s :
  0.3 <= 1 - Rmin 0.7 (Rabs s / maxSpeed) <= 1.
Proof.
  assert (0 <= Rabs s / maxSpeed).
  { unfold maxSpeed. pose proof (Rabs_pos s). lra. }
  clamp.
Qed.

Lemma updateSpeed_in_range v : speed_in_range v -> speed_in_range (updateSpeed v).
Proof.
  unfold speed_in_range, updateSpeed. intros Hv.
  pose proof (accelerationFactor_bounds (speed v)) as Hf.
  set (k := 1 - Rmin 0.7 (Rabs (speed v) / maxSpeed)) in *. clearbody k.
  repeat case_match; simpl; clamp.
Qed.

Section Run_lemmas.

Context `{Babylon}.

Lemma step_speed_in_range v e : speed_in_range v -> speed_in_range (step v e).
Proof.
  intros Hv. destruct e as [key|key|f]; simpl.
  - unfold speed_in_range.
    destruct (handleKeyDown_motion key (if (key =? "r")%string then reset v else v))
      as [-> _].
    case_match; [simpl; unfold maxSpeed; lra | exact Hv].
  - unfold speed_in_range. destruct (handleKeyUp_motion key v) as [-> _]. exact Hv.
  - unfold speed_in_range. rewrite update_speed. now apply updateSpeed_in_range.
Qed.

Lemma fold_step_invariant (P : Vehicle -> Prop) :
  (forall v e, P v -> P (step v e)) ->
  forall events v, P v -> P (fold_left step events v).
Proof.
  intros Hstep events. induction events as [|e events IH]; intros v Hv; simpl.
  - exact Hv.
  - apply IH, Hstep, Hv.
Qed.

End Run_lemmas.

(** C1. From the spawn state, whatever keys go down and up and whatever the
    frames show, the speed never exceeds [maxSpeed] and never falls below
    minus half of it; in particular this holds after every tick. *)
Theorem speed_within_caps `{Babylon} (havok : bool) (events : list Event) :
  speed (run havok events) <= maxSpeed /\
  speed (run havok events) >= - maxSpeed / 2 /\
  maxSpeed = 80 /\ acceleration = 0.5 /\ deceleration = 0.2 /\ brakeForce = 1.5.
Proof.
  assert (Hr : speed_in_range (run havok events)).
  { unfold run. apply fold_step_invariant.
    - intros v e. apply step_speed_in_range.
    - unfold speed_in_range, maxSpeed. simpl. lra. }
  unfold speed_in_range in Hr.
  repeat split; try reflexivity; lra.
Qed.

(** C6. In a frame with [brake] set the speed moves towards zero by
    [brakeForce] and stops at zero, whatever [forward] and [backward] say:
    the new speed is the same for every setting of the two, it keeps the
    sign of the old one, and its distance to zero is the old distance less
    [brakeForce], or zero. *)
Theorem brake_moves_speed_to_zero `{Babylon} (f : Frame) (v : Vehicle) :
  brake (controls v) = true ->
  speed (update f v) = braked (speed v) /\
  (speed v > 0 -> speed (update f v) = Rmax 0 (speed v - brakeForce)) /\
  (speed v < 0 -> speed (update f v) = Rmin 0 (speed v + brakeForce)) /\
  Rabs (speed (update f v)) = Rmax 0 (Rabs (speed v) - brakeForce) /\
  0 <= speed (update f v) * speed v /\
  (forall fw bw : bool,
      speed (update f (set_controls
                         (set_forward fw (set_backward bw (controls v))) v))
      = speed (update f v)).
Proof.
  intros Hb.
  assert (E : forall w, brake (controls w) = true ->
                        speed (update f w) = braked (speed w)).
  { intros w Hw. rewrite update_speed. unfold updateSpeed, braked. rewrite Hw.
    step_cases. }
  rewrite (E v Hb). unfold braked.
  split; [reflexivity|].
  split; [intros Hs; destruct Rgt_dec; [reflexivity | lra]|].
  split; [intros Hs; destruct Rgt_dec; [lra|]; destruct Rlt_dec; [reflexivity | lra]|].
  split; [|split].
  - unfold Rabs; repeat destruct Rcase_abs; repeat destruct Rgt_dec;
      repeat destruct Rlt_dec; clamp.
  - repeat destruct Rgt_dec; repeat destruct Rlt_dec; clamp; nra.
  - intros fw bw. rewrite E by exact Hb. reflexivity.
Qed.

(** Braking from speed 10 in an empty scene. *)
Lemma brake_moves_speed_to_zero_witness :
  brake (controls (set_speed 10 (handleKeyDown " " (spawn false)))) = true /\
  speed (update emptyFrame (set_speed 10 (handleKeyDown " " (spawn false))))
  = Rmax 0 (10 - brakeForce).
Proof.
  split; [reflexivity|].
  destruct (brake_moves_speed_to_zero
              emptyFrame (set_speed 10 (handleKeyDown " " (spawn false))) eq_refl)
    as (_ & Hpos & _).
  apply Hpos. simpl. lra.
Defined.

(** C7. In a frame with [forward] set and [brake] not set the speed grows
    by the acceleration, which fades as the speed nears the cap, and stops
    at the cap; from rest one such frame gives 0.5, at the cap it gives the
    cap. *)
Theorem forward_accelerates `{Babylon} (f : Frame) (v : Vehicle) :
  brake (controls v) = false ->
  forward (controls v) = true ->
  speed (update f v)
  = Rmin maxSpeed
         (speed v + acceleration * (1 - Rmin 0.7 (Rabs (speed v) / maxSpeed))) /\
  acceleration = 0.5 /\ maxSpeed = 80 /\
  (speed v = 0 -> speed (update f v) = 0.5) /\
  (speed v = 80 -> speed (update f v) = 80).
Proof.
  intros Hb Hf.
  assert (E : speed (update f v)
              = Rmin maxSpeed
                  (speed v + acceleration * (1 - Rmin 0.7 (Rabs (speed v) / maxSpeed)))).
  { rewrite update_speed. unfold updateSpeed. rewrite Hb, Hf. reflexivity. }
  split; [exact E|]. split; [reflexivity|]. split; [reflexivity|].
  split; intros Hs; rewrite E, Hs.
  - rewrite Rabs_R0. clamp.
  - rewrite Rabs_pos_eq by lra. clamp.
Qed.

(** The first frame with [w] held. *)
Lemma forward_accelerates_witness :
  brake (controls (handleKeyDown "w" (spawn false))) = false /\
  forward (controls (handleKeyDown "w" (spawn false))) = true /\
  speed (update emptyFrame (handleKeyDown "w" (spawn false))) = 0.5.
Proof.
  split; [reflexivity|]. split; [reflexivity|].
  destruct (forward_accelerates emptyFrame (handleKeyDown "w" (spawn false))
                                eq_refl eq_refl)
    as (_ & _ & _ & Hrest & _).
  apply Hrest. reflexivity.
Defined.

(** ** Steering dynamics *)

Lemma maxSteeringAngle_pos : 0 < maxSteeringAngle.
Proof. unfold maxSteeringAngle. pose proof PI_RGT_0. lra. Qed.

Lemma updateSteering_in_range v :
  steering_in_range v -> steering_in_range (updateSteering v).
Proof.
  unfold steering_in_range, updateSteering. intros Hv.
  pose proof maxSteeringAngle_pos as Hm.
  repeat case_match; simpl in *; clamp.
Qed.

Lemma updateSteering_centres v :
  left (controls v) = false -> right (controls v) = false ->
  steeringAngle (updateSteering v) = centred (steeringAngle v).
Proof.
  intros Hl Hr. unfold updateSteering, centred. rewrite Hl, Hr. simpl.
  repeat case_match; simpl in *; try reflexivity; try congruence.
Qed.

Lemma centred_towards_zero a :
  Rabs (centred a) = Rmax 0 (Rabs a - turnSpeed / 2) /\
  (0 <= a -> 0 <= centred a <= a) /\
  (a <= 0 -> a <= centred a <= 0).
Proof.
  unfold centred, Rabs.
  repeat destruct Rcase_abs; repeat destruct Rgt_dec; repeat destruct Rlt_dec;
    clamp; repeat split; lra.
Qed.

Section Steering_run.

Context `{Babylon}.

Lemma step_steering_in_range v e :
  steering_in_range v -> steering_in_range (step v e).
Proof.
  intros Hv. destruct e as [key|key|f]; simpl.
  - unfold steering_in_range.
    destruct (handleKeyDown_motion key (if (key =? "r")%string then reset v else v))
      as (_ & -> & _).
    case_match; [simpl; pose proof maxSteeringAngle_pos; lra | exact Hv].
  - unfold steering_in_range.
    destruct (handleKeyUp_motion key v) as (_ & -> & _). exact Hv.
  - unfold steering_in_range. rewrite update_steeringAngle.
    now apply updateSteering_in_range.
Qed.

End Steering_run.

(** C2. From the spawn state, whatever keys go down and up and whatever the
    frames show, the steering angle stays within [maxSteeringAngle] of zero;
    and a frame with neither [left] nor [right] set moves the steering angle
    of any vehicle towards zero by half of [turnSpeed], stopping at zero: it
    never changes sign. *)
Theorem steering_within_lock `{Babylon} (havok : bool) (events : list Event) :
  Rabs (steeringAngle (run havok events)) <= maxSteeringAngle /\
  turnSpeed = 0.05 /\ maxSteeringAngle = PI / 6 /\
  (forall (f : Frame) (v : Vehicle),
      left (controls v) = false -> right (controls v) = false ->
      steeringAngle (update f v) = centred (steeringAngle v) /\
      Rabs (steeringAngle (update f v))
      = Rmax 0 (Rabs (steeringAngle v) - turnSpeed / 2) /\
      (0 <= steeringAngle v -> 0 <= steeringAngle (update f v) <= steeringAngle v) /\
      (steeringAngle v <= 0 -> steeringAngle v <= steeringAngle (update f v) <= 0)).
Proof.
  split; [|split; [reflexivity|split; [reflexivity|]]].
  - assert (Hr : steering_in_range (run havok events)).
    { unfold run. apply fold_step_invariant.
      - intros v e. apply step_steering_in_range.
      - unfold steering_in_range. simpl. pose proof maxSteeringAngle_pos. lra. }
    unfold steering_in_range in Hr. apply Rabs_le. lra.
  - intros f v Hl Hr. rewrite update_steeringAngle.
    rewrite (updateSteering_centres v Hl Hr).
    split; [reflexivity|]. apply centred_towards_zero.
Qed.

(** Relaxing the steering of the spawned vehicle in an empty scene. *)
Lemma steering_within_lock_witness :
  left (controls (spawn false)) = false /\
  right (controls (spawn false)) = false /\
  steeringAngle (update emptyFrame (spawn false))
  = centred (steeringAngle (spawn false)).
Proof.
  split; [reflexivity|]. split; [reflexivity|].
  destruct (steering_within_lock false []) as (_ & _ & _ & Hcentre).
  destruct (Hcentre emptyFrame (spawn false) eq_refl eq_refl) as (Hc & _).
  exact Hc.
Defined.

(** ** Coasting *)

Lemma idle_fields c :
  idle c = true ->
  forward c = false /\ backward c = false /\ left c = false /\
  right c = false /\ brake c = false /\ handbrake c = false.
Proof. destruct c as [[] [] [] [] [] [] ?]; simpl; intros E; try discriminate; auto 10. Qed.

Section Coasting.

Context `{Babylon}.

Lemma coast_speed f v :
  idle (controls v) = true -> 0 <= speed v ->
  speed (update f v) = Rmax 0 (speed v - deceleration).
Proof.
  intros Hi Hs. destruct (idle_fields _ Hi) as (Hf & Hb & _ & _ & Hk & _).
  rewrite update_speed. unfold updateSpeed. rewrite Hk, Hf, Hb.
  repeat case_match; simpl; clamp.
Qed.

Lemma ticks_controls frames n v :
  controls (ticks frames n v) = controls v.
Proof.
  induction n as [|n IH]; simpl; [reflexivity|].
  now rewrite update_controls.
Qed.

Lemma ticks_coast frames n v :
  idle (controls v) = true -> 0 <= speed v ->
  speed (ticks frames n v) = Rmax 0 (speed v - deceleration * INR n).
Proof.
  intros Hi Hs. induction n as [|n IH].
  - simpl. clamp.
  - cbn [ticks]. rewrite coast_speed.
    + rewrite IH, S_INR. clamp.
    + now rewrite ticks_controls.
    + rewrite IH. apply Rmax_l.
Qed.

End Coasting.

(** C9. A vehicle at [maxSpeed] with no control set loses speed in every
    frame as long as the speed is above zero, is never below zero, is above
    zero during the first 400 frames and at exactly zero from then on; and
    a vehicle at rest with no control set stays at rest in every frame, with
    a zero steering angle staying zero. *)
Theorem coasting_decays_to_rest `{Babylon} (frames : nat -> Frame) (v : Vehicle) :
  idle (controls v) = true ->
  speed v = maxSpeed ->
  0 < deceleration /\ deceleration = 0.2 /\
  (forall n, 0 <= speed (ticks frames n v)) /\
  (forall n, 0 < speed (ticks frames n v) ->
             speed (ticks frames (S n) v) < speed (ticks frames n v)) /\
  (forall n, (n < 400)%nat -> 0 < speed (ticks frames n v)) /\
  (forall n, (400 <= n)%nat -> speed (ticks frames n v) = 0) /\
  (forall (f : Frame) (w : Vehicle),
      idle (controls w) = true -> speed w = 0 ->
      speed (update f w) = 0 /\
      (steeringAngle w = 0 -> steeringAngle (update f w) = 0)).
Proof.
  intros Hi Hs.
  assert (E : forall n, speed (ticks frames n v)
                        = Rmax 0 (maxSpeed - deceleration * INR n)).
  { intros n. rewrite ticks_coast by (try exact Hi; rewrite Hs; unfold maxSpeed; lra).
    now rewrite Hs. }
  split; [unfold deceleration; lra|]. split; [reflexivity|].
  split; [intros n; rewrite E; apply Rmax_l|].
  split; [|split; [|split]].
  - intros n Hn. rewrite (E (S n)). rewrite E in Hn. rewrite E, S_INR. clamp.
  - intros n Hn. rewrite E. apply lt_INR in Hn.
    assert (H400 : INR 400 = 400) by (rewrite INR_IZR_INZ; reflexivity).
    rewrite H400 in Hn. clamp.
  - intros n Hn. rewrite E. apply le_INR in Hn.
    assert (H400 : INR 400 = 400) by (rewrite INR_IZR_INZ; reflexivity).
    rewrite H400 in Hn. clamp.
  - intros f w Hw Hz. split.
    + rewrite coast_speed by (try exact Hw; lra). rewrite Hz. clamp.
    + intros Ha. destruct (idle_fields _ Hw) as (_ & _ & Hl & Hr & _).
      rewrite update_steeringAngle, (updateSteering_centres w Hl Hr), Ha.
      unfold centred. repeat destruct Rgt_dec; repeat destruct Rlt_dec; lra.
Qed.

(** Coasting from the cap: at rest after 400 frames. *)
Lemma coasting_decays_to_rest_witness :
  idle (controls (set_speed maxSpeed (spawn false))) = true /\
  speed (set_speed maxSpeed (spawn false)) = maxSpeed /\
  speed (ticks (fun _ => emptyFrame) 400 (set_speed maxSpeed (spawn false))) = 0.
Proof.
  split; [reflexivity|]. split; [reflexivity|].
  destruct (coasting_decays_to_rest (fun _ => emptyFrame)
                                    (set_speed maxSpeed (spawn false))
                                    eq_refl eq_refl)
    as (_ & _ & _ & _ & _ & Hrest & _).
  apply Hrest. lia.
Defined.

(** ** The terrain query and the terrain follower *)

Section Terrain.

Context `{Babylon}.

Lemma adjustToTerrain_position f v e :
  window_environment f = Some e ->
  exists h,
    getHeightAtPosition e (Vector3.x (Mesh.position (mesh v)))
                          (Vector3.z (Mesh.position (mesh v))) = Some h /\
    Mesh.position (mesh (adjustToTerrain f v))
    = Vector3.set_y (h + wheelRadius) (Mesh.position (mesh v)).
Proof.
  intros He. unfold adjustToTerrain. rewrite He.
  destruct (getHeightAtPosition e _ _) as [h|] eqn:Eh.
  - exists h. split; [reflexivity|].
    unfold adjustPitchAndRoll. step_cases.
  - unfold getHeightAtPosition in Eh. destruct pickWithRay; discriminate.
Qed.

Lemma adjustToTerrain_in_the_air f v :
  some_wheel_in_the_air v ->
  Mesh.rotationQuaternion (mesh (adjustToTerrain f v))
  = Mesh.rotationQuaternion (mesh v).
Proof.
  intros (i & Hi & Hw). unfold adjustToTerrain.
  destruct (window_environment f) as [e|]; [|reflexivity].
  destruct (getHeightAtPosition e _ _) as [h|]; [|reflexivity].
  cbn [wheelRaycasts set_mesh_position set_mesh].
  destruct (wheelRaycasts v) as [|r0 [|r1 [|r2 [|r3 rs]]]]; try reflexivity.
  destruct i as [|[|[|[|i]]]]; try lia; simpl in Hw; rewrite Hw;
    repeat case_match; reflexivity.
Qed.

End Terrain.

(** C10. The terrain query answers every place with a number: the height of
    the picked point, or 0 when the ray finds no ground; it never answers
    null. So with an environment the terrain follower always takes the
    branch that sets the elevation, to that number plus [wheelRadius]. *)
Theorem getHeightAtPosition_is_total `{Babylon} (e : Environment) (x z : R) :
  (exists h : R, getHeightAtPosition e x z = Some h) /\
  getHeightAtPosition e x z <> None /\
  (pickWithRay (env_scene e) (heightRay x z) = NoHit ->
   getHeightAtPosition e x z = Some 0) /\
  (forall (f : Frame) (v : Vehicle),
      window_environment f = Some e ->
      exists h : R,
        getHeightAtPosition e (Vector3.x (Mesh.position (mesh v)))
                              (Vector3.z (Mesh.position (mesh v))) = Some h /\
        Mesh.position (mesh (adjustToTerrain f v))
        = Vector3.set_y (h + wheelRadius) (Mesh.position (mesh v))).
Proof.
  unfold getHeightAtPosition, heightRay.
  split; [|split; [|split]].
  - destruct pickWithRay; eauto.
  - destruct pickWithRay; discriminate.
  - intros ->. reflexivity.
  - intros f v He. apply adjustToTerrain_position, He.
Qed.

(** The height of a place in the empty scene. *)
Lemma getHeightAtPosition_is_total_witness :
  pickWithRay emptyScene (heightRay 3 4) = NoHit /\
  getHeightAtPosition {| env_scene := emptyScene |} 3 4 = Some 0.
Proof.
  split; [reflexivity|].
  destruct (getHeightAtPosition_is_total {| env_scene := emptyScene |} 3 4)
    as (_ & _ & Hdefault & _).
  apply Hdefault. reflexivity.
Defined.

(** C4, as the code has it. In a frame whose terrain query finds no ground
    under the vehicle, the terrain follower takes the default height 0: it
    sets the elevation to [wheelRadius], leaves the place on the ground, the
    heading and the mesh rotation as they are, and leaves the orientation
    quaternion as it is whenever one of the four wheels is in the air. *)
Theorem no_ground_sets_default_elevation `{Babylon}
        (f : Frame) (e : Environment) (v : Vehicle) :
  window_environment f = Some e ->
  pickWithRay (env_scene e)
              (heightRay (Vector3.x (Mesh.position (mesh v)))
                         (Vector3.z (Mesh.position (mesh v)))) = NoHit ->
  Mesh.position (mesh (adjustToTerrain f v))
  = Vector3.set_y (0 + wheelRadius) (Mesh.position (mesh v)) /\
  Vector3.y (Mesh.position (mesh (adjustToTerrain f v))) = 0.7 /\
  Mesh.rotation (mesh (adjustToTerrain f v)) = Mesh.rotation (mesh v) /\
  rotation (adjustToTerrain f v) = rotation v /\
  (some_wheel_in_the_air v ->
   Mesh.rotationQuaternion (mesh (adjustToTerrain f v))
   = Mesh.rotationQuaternion (mesh v)).
Proof.
  intros He Hpick.
  destruct (adjustToTerrain_position f v e He) as (h & Hh & Hp).
  unfold getHeightAtPosition in Hh. unfold heightRay in Hpick.
  rewrite Hpick in Hh. injection Hh as <-.
  split; [exact Hp|]. split; [rewrite Hp; unfold wheelRadius; simpl; lra|].
  split; [apply adjustToTerrain_mesh_rotation|].
  split; [apply adjustToTerrain_rotation|].
  apply adjustToTerrain_in_the_air.
Qed.

(** The terrain follower on the spawned vehicle in the empty scene. *)
Lemma no_ground_sets_default_elevation_witness :
  window_environment emptyFrame = Some {| env_scene := emptyScene |} /\
  pickWithRay emptyScene (heightRay 0 0) = NoHit /\
  Vector3.y (Mesh.position (mesh (adjustToTerrain emptyFrame (spawn false)))) = 0.7.
Proof.
  split; [reflexivity|]. split; [reflexivity|].
  destruct (no_ground_sets_default_elevation
              emptyFrame {| env_scene := emptyScene |} (spawn false)
              eq_refl eq_refl)
    as (_ & Hy & _).
  exact Hy.
Defined.

(** ** The kinematic integrator *)

Section Integrator.

Context `{Babylon}.

Lemma update_unfold f v :
  update f v = if chassisBody v then beforePhysics f v
               else updateBasicPhysics f (beforePhysics f v).
Proof.
  unfold update, beforePhysics.
  replace (chassisBody (updateWheels _)) with (chassisBody v); [reflexivity|].
  simpl.
  destruct (updateSpeed_rest (updateSteering v)) as (_ & _ & ->).
  destruct (updateSteering_rest v) as (_ & _ & ->). reflexivity.
Qed.

Lemma beforePhysics_motion f v :
  speed (beforePhysics f v) = speed (updateSpeed v) /\
  steeringAngle (beforePhysics f v) = steeringAngle (updateSteering v) /\
  rotation (beforePhysics f v) = rotation v /\
  mesh (beforePhysics f v) = mesh v.
Proof.
  unfold beforePhysics. simpl. split; [|split; [|split]].
  - apply updateSpeed_reads;
      [apply updateSteering_speed | apply updateSteering_controls].
  - apply updateSpeed_steeringAngle.
  - destruct (updateSpeed_rest (updateSteering v)) as (-> & _).
    apply updateSteering_rest.
  - destruct (updateSpeed_rest (updateSteering v)) as (_ & -> & _).
    apply updateSteering_rest.
Qed.

Lemma updateBasicPhysics_moves f v :
  speed v <> 0 ->
  rotation (updateBasicPhysics f v) = turned v /\
  Vector3.x (Mesh.position (mesh (updateBasicPhysics f v)))
  = Vector3.x (Mesh.position (mesh v)) + sin (turned v) * speed v /\
  Vector3.z (Mesh.position (mesh (updateBasicPhysics f v)))
  = Vector3.z (Mesh.position (mesh v)) + cos (turned v) * speed v /\
  Vector3.y (Mesh.rotation (mesh (updateBasicPhysics f v))) = turned v.
Proof.
  intros Hs. unfold updateBasicPhysics.
  destruct (Req_dec_T (speed v) 0) as [E|_]; [contradiction|].
  rewrite adjustToTerrain_rotation, adjustToTerrain_mesh_rotation.
  match goal with
  | |- context [adjustToTerrain f ?w] =>
      destruct (adjustToTerrain_mesh_xz f w) as [-> ->]
  end.
  simpl. unfold turned. auto.
Qed.

Lemma updateBasicPhysics_at_rest f v :
  speed v = 0 -> updateBasicPhysics f v = v.
Proof.
  intros Hs. unfold updateBasicPhysics.
  destruct (Req_dec_T (speed v) 0); [reflexivity | contradiction].
Qed.

Lemma updateBasicPhysics_elevation f v e :
  speed v <> 0 -> window_environment f = Some e ->
  exists x z h, getHeightAtPosition e x z = Some h /\
    Vector3.y (Mesh.position (mesh (updateBasicPhysics f v))) = h + wheelRadius.
Proof.
  intros Hs He. unfold updateBasicPhysics.
  destruct (Req_dec_T (speed v) 0) as [E|_]; [contradiction|].
  match goal with
  | |- context [adjustToTerrain f ?w] =>
      destruct (adjustToTerrain_position f w e He) as (h & Hh & ->)
  end.
  eexists _, _, h. split; [exact Hh | reflexivity].
Qed.

End Integrator.

(** ** The first frame of a drive *)

Lemma updateSpeed_forward v :
  brake (controls v) = false -> forward (controls v) = true ->
  speed (updateSpeed v)
  = Rmin maxSpeed
         (speed v + acceleration * (1 - Rmin 0.7 (Rabs (speed v) / maxSpeed))).
Proof. intros Hb Hf. unfold updateSpeed. rewrite Hb, Hf. reflexivity. Qed.

Lemma updateSpeed_forward_from_rest v :
  brake (controls v) = false -> forward (controls v) = true -> speed v = 0 ->
  speed (updateSpeed v) = 0.5.
Proof.
  intros Hb Hf Hs. rewrite (updateSpeed_forward v Hb Hf), Hs, Rabs_R0. clamp.
Qed.

Lemma updateSteering_right v :
  left (controls v) = false -> right (controls v) = true ->
  steeringAngle (updateSteering v)
  = Rmin maxSteeringAngle (steeringAngle v + turnSpeed).
Proof.
  intros Hl Hr. unfold updateSteering.
  rewrite Hl, Hr. simpl. rewrite Hl. simpl. rewrite Hr. simpl.
  step_cases.
Qed.

Lemma PI_gt_3 : 3 < PI.
Proof. pose proof PI2_3_2. lra. Qed.

Lemma updateSteering_right_from_centre v :
  left (controls v) = false -> right (controls v) = true -> steeringAngle v = 0 ->
  steeringAngle (updateSteering v) = 0.05.
Proof.
  intros Hl Hr Hs. rewrite (updateSteering_right v Hl Hr), Hs.
  unfold maxSteeringAngle. pose proof PI_gt_3. clamp.
Qed.

Lemma quotient_by_turn_radius s a :
  0 < a -> s / (wheelBase / a) = s * a / 4.
Proof. intros Ha. unfold wheelBase. field. lra. Qed.

Lemma sin_small_pos a : 0 < a -> a < 1 -> 0 < sin a.
Proof. intros H0 H1. apply sin_gt_0; [lra | pose proof PI_gt_3; lra]. Qed.

Lemma sin_small_lt a b : 0 <= a -> a < b -> b < 1 -> sin a < sin b.
Proof.
  intros H0 Hab H1. pose proof PI_gt_3.
  apply sin_increasing_1; lra.
Qed.

(** The vehicle that enters the integrator in the first frame: half a unit
    of speed, a twentieth of a radian of steering, heading 0. *)
Lemma first_frame_before_physics :
  speed (beforePhysics emptyFrame turningRight) = 0.5 /\
  steeringAngle (beforePhysics emptyFrame turningRight) = 0.05 /\
  rotation (beforePhysics emptyFrame turningRight) = 0.
Proof.
  destruct (beforePhysics_motion emptyFrame turningRight) as (-> & -> & -> & _).
  split; [|split].
  - apply updateSpeed_forward_from_rest; reflexivity.
  - apply updateSteering_right_from_centre; reflexivity.
  - reflexivity.
Qed.

Lemma first_frame_heading :
  rotation (update emptyFrame turningRight) = 0.5 * sin 0.0501 / 4 /\
  0 < rotation (update emptyFrame turningRight).
Proof.
  assert (E : rotation (update emptyFrame turningRight) = 0.5 * sin 0.0501 / 4).
  { rewrite update_unfold. change (chassisBody turningRight) with false. cbv iota.
    destruct first_frame_before_physics as (Hs & Ha & Hr).
    destruct (updateBasicPhysics_moves emptyFrame
                (beforePhysics emptyFrame turningRight)) as (-> & _).
    { rewrite Hs. lra. }
    unfold turned. rewrite Hs, Ha, Hr.
    rewrite Rabs_pos_eq by lra. rewrite Math_sign_pos by lra.
    replace (0.05 + 0.0001) with 0.0501 by lra.
    rewrite quotient_by_turn_radius by (apply sin_small_pos; lra). lra. }
  split; [exact E|]. rewrite E.
  pose proof (sin_small_pos 0.0501). lra.
Qed.

(** ** Reset *)

Lemma reset_rotation v : rotation (reset v) = rotation v.
Proof. reflexivity. Qed.

Lemma step_key_r `{Babylon} v : step v (KeyDown "r") = reset v.
Proof. reflexivity. Qed.

Lemma run_snoc `{Babylon} havok events e :
  run havok (events ++ [e]) = step (run havok events) e.
Proof. unfold run. now rewrite fold_left_app. Qed.

Lemma run_first_frame :
  run false [KeyDown "w"; KeyDown "d"; BeforeRender emptyFrame]
  = update emptyFrame turningRight.
Proof. reflexivity. Qed.

(** C3. [reset] puts the mesh at the origin with a zero mesh rotation, the
    speed and the steering angle at zero and the six controls off, for
    every vehicle; it does not touch the heading [rotation], which the
    integrator accumulates and copies to the mesh in the next moving frame.
    After one frame with [w] and [d] held the heading is not 0, and it is
    the same after [reset] as before, also when the reset comes from the
    key [r]. *)
Theorem reset_keeps_heading :
  (forall v : Vehicle,
      Mesh.position (mesh (reset v)) = Vector3.Zero /\
      Mesh.rotation (mesh (reset v)) = Vector3.Zero /\
      speed (reset v) = 0 /\ steeringAngle (reset v) = 0 /\
      idle (controls (reset v)) = true /\
      rotation (reset v) = rotation v /\
      Mesh.rotationQuaternion (mesh (reset v)) = Mesh.rotationQuaternion (mesh v)) /\
  rotation (spawn false) = 0 /\
  rotation (reset (run false [KeyDown "w"; KeyDown "d"; BeforeRender emptyFrame]))
  = 0.5 * sin 0.0501 / 4 /\
  rotation (reset (run false [KeyDown "w"; KeyDown "d"; BeforeRender emptyFrame]))
  <> 0 /\
  rotation (run false ([KeyDown "w"; KeyDown "d"; BeforeRender emptyFrame]
                         ++ [KeyDown "r"]))
  <> 0.
Proof.
  destruct first_frame_heading as (E & Hpos).
  split; [intros v; repeat split|].
  split; [reflexivity|].
  rewrite run_snoc, step_key_r, reset_rotation, run_first_frame.
  split; [exact E|]. split; lra.
Qed.

(** ** No ground under the vehicle, and the angle the integrator reads *)

Lemma emptyScene_height x z :
  getHeightAtPosition {| env_scene := emptyScene |} x z = Some 0.
Proof. reflexivity. Qed.

(** C4, as the spec has it, fails. Every height ray misses in the empty
    scene; the terrain follower all the same moves the elevation of the
    spawned vehicle from 0 to [wheelRadius], and so does the whole first
    frame of a drive with [w] held. *)
Lemma no_ground_changes_elevation :
  (forall x z, pickWithRay emptyScene (heightRay x z) = NoHit) /\
  window_environment emptyFrame = Some {| env_scene := emptyScene |} /\
  Vector3.y (Mesh.position (mesh (spawn false))) = 0 /\
  Vector3.y (Mesh.position (mesh (adjustToTerrain emptyFrame (spawn false)))) = 0.7 /\
  Vector3.y (Mesh.position (mesh (adjustToTerrain emptyFrame (spawn false))))
  <> Vector3.y (Mesh.position (mesh (spawn false))) /\
  Vector3.y (Mesh.position (mesh (handleKeyDown "w" (spawn false)))) = 0 /\
  Vector3.y (Mesh.position (mesh (update emptyFrame (handleKeyDown "w" (spawn false)))))
  = 0.7.
Proof.
  split; [reflexivity|]. split; [reflexivity|]. split; [reflexivity|].
  assert (E : Vector3.y (Mesh.position
                           (mesh (adjustToTerrain emptyFrame (spawn false)))) = 0.7).
  { destruct (adjustToTerrain_position emptyFrame (spawn false)
                {| env_scene := emptyScene |} eq_refl) as (h & Hh & ->).
    rewrite emptyScene_height in Hh. injection Hh as <-.
    unfold wheelRadius. simpl. lra. }
  split; [exact E|]. split; [rewrite E; simpl; lra|]. split; [reflexivity|].
  rewrite update_unfold.
  change (chassisBody (handleKeyDown "w" (spawn false))) with false. cbv iota.
  destruct (updateBasicPhysics_elevation emptyFrame
              (beforePhysics emptyFrame (handleKeyDown "w" (spawn false)))
              {| env_scene := emptyScene |}) as (x & z & h & Hh & ->).
  - destruct (beforePhysics_motion emptyFrame (handleKeyDown "w" (spawn false)))
      as (-> & _).
    rewrite updateSpeed_forward_from_rest by reflexivity. lra.
  - reflexivity.
  - rewrite emptyScene_height in Hh. injection Hh as <-. unfold wheelRadius. lra.
Qed.

(** C5, as the code has it. The integrator turns a moving vehicle by the
    bicycle-model formulas on the stored steering angle: the heading grows
    by [speed / (wheelBase / sin (|steeringAngle| + 0.0001))] times the sign
    of the steering angle, the mesh moves by the speed along the new
    heading and takes the new heading as its rotation about the vertical;
    with a zero effective steering angle and speed 10 the heading stays and
    the mesh moves by [10 * sin heading] and [10 * cos heading]. *)
Theorem integrator_turns_by_stored_angle `{Babylon} (f : Frame) (v : Vehicle) :
  speed v <> 0 ->
  rotation (updateBasicPhysics f v)
  = rotation v
    + speed v / (wheelBase / sin (Rabs (steeringAngle v) + 0.0001))
      * Math.sign (steeringAngle v) /\
  Vector3.x (Mesh.position (mesh (updateBasicPhysics f v)))
  = Vector3.x (Mesh.position (mesh v))
    + sin (rotation (updateBasicPhysics f v)) * speed v /\
  Vector3.z (Mesh.position (mesh (updateBasicPhysics f v)))
  = Vector3.z (Mesh.position (mesh v))
    + cos (rotation (updateBasicPhysics f v)) * speed v /\
  Vector3.y (Mesh.rotation (mesh (updateBasicPhysics f v)))
  = rotation (updateBasicPhysics f v) /\
  (spec_effectiveSteeringAngle v = 0 -> speed v = 10 ->
   rotation (updateBasicPhysics f v) = rotation v /\
   Vector3.x (Mesh.position (mesh (updateBasicPhysics f v)))
   = Vector3.x (Mesh.position (mesh v)) + 10 * sin (rotation v) /\
   Vector3.z (Mesh.position (mesh (updateBasicPhysics f v)))
   = Vector3.z (Mesh.position (mesh v)) + 10 * cos (rotation v)).
Proof.
  intros Hs.
  destruct (updateBasicPhysics_moves f v Hs) as (Hr & Hx & Hz & Hy).
  rewrite Hr, Hx, Hz, Hy. unfold turned.
  repeat (split; [reflexivity|]).
  intros He H10. unfold spec_effectiveSteeringAngle in He.
  assert (Ha : steeringAngle v = 0).
  { rewrite H10, Rabs_pos_eq in He by lra.
    unfold maxSpeed in He. unfold Rmax in He. destruct Rle_dec; nra. }
  rewrite Ha, Math_sign_0, H10.
  replace (rotation v + 10 / (wheelBase / sin (Rabs 0 + 0.0001)) * 0)
    with (rotation v) by lra.
  repeat split; lra.
Qed.

(** Straight ahead at speed 10 from the spawn pose. *)
Lemma integrator_turns_by_stored_angle_witness :
  speed (set_speed 10 (spawn false)) <> 0 /\
  rotation (updateBasicPhysics emptyFrame (set_speed 10 (spawn false))) = 0.
Proof.
  assert (Hs : speed (set_speed 10 (spawn false)) <> 0) by (simpl; lra).
  split; [exact Hs|].
  destruct (integrator_turns_by_stored_angle
              emptyFrame (set_speed 10 (spawn false)) Hs)
    as (_ & _ & _ & _ & Hstraight).
  destruct Hstraight as (Hr & _).
  - unfold spec_effectiveSteeringAngle. simpl. lra.
  - reflexivity.
  - exact Hr.
Defined.

(** C5, as the spec has it, fails. The vehicle that enters the integrator in
    the first frame of a drive with [w] and [d] held moves at 0.5 and steers
    by 0.05; the integrator turns it by [0.5 * sin 0.0501 / 4], which is
    more than the turn by the speed-scaled angle. *)
Lemma integrator_ignores_speed_scaling :
  speed (beforePhysics emptyFrame turningRight) <> 0 /\
  rotation (updateBasicPhysics emptyFrame (beforePhysics emptyFrame turningRight))
  = 0.5 * sin 0.0501 / 4 /\
  spec_turned (beforePhysics emptyFrame turningRight)
  = 0.5 * sin (0.05 * 0.996875 + 0.0001) / 4 /\
  rotation (updateBasicPhysics emptyFrame (beforePhysics emptyFrame turningRight))
  <> spec_turned (beforePhysics emptyFrame turningRight).
Proof.
  destruct first_frame_before_physics as (Hs & Ha & Hr).
  assert (Hne : speed (beforePhysics emptyFrame turningRight) <> 0)
    by (rewrite Hs; lra).
  destruct (updateBasicPhysics_moves emptyFrame _ Hne) as (-> & _).
  assert (Ecode : turned (beforePhysics emptyFrame turningRight)
                  = 0.5 * sin 0.0501 / 4).
  { unfold turned. rewrite Hs, Ha, Hr.
    rewrite Rabs_pos_eq by lra. rewrite Math_sign_pos by lra.
    replace (0.05 + 0.0001) with 0.0501 by lra.
    rewrite quotient_by_turn_radius by (apply sin_small_pos; lra). lra. }
  assert (Espec : spec_turned (beforePhysics emptyFrame turningRight)
                  = 0.5 * sin (0.05 * 0.996875 + 0.0001) / 4).
  { unfold spec_turned, spec_effectiveSteeringAngle. rewrite Hs, Ha, Hr.
    replace (Rmax 0 (1 - 0.5 * Rabs 0.5 / maxSpeed)) with 0.996875
      by (rewrite Rabs_pos_eq by lra; clamp).
    rewrite Rabs_pos_eq by lra. rewrite Math_sign_pos by lra.
    rewrite quotient_by_turn_radius by (apply sin_small_pos; lra). lra. }
  split; [exact Hne|]. split; [exact Ecode|]. split; [exact Espec|].
  rewrite Ecode, Espec.
  pose proof (sin_small_lt (0.05 * 0.996875 + 0.0001) 0.0501). lra.
Qed.

(** ** The effective steering angle *)

Lemma front_two_alter (g : Wheel.t -> Wheel.t) (l : list Wheel.t) (i : nat) :
  (i < 2)%nat -> alter g 1%nat (alter g 0%nat l) !! i = g <$> l !! i.
Proof.
  intros Hi. destruct i as [|[|i]]; [| |lia];
    destruct l as [|a [|b l]]; reflexivity.
Qed.

Lemma updateSteering_front_wheels v i :
  (i < 2)%nat -> (2 <= List.length (wheelMeshes v))%nat ->
  wheelMeshes (updateSteering v) !! i
  = set_rotation_y (effectiveSteeringAngle v) <$> wheelMeshes v !! i.
Proof.
  intros Hi Hl. unfold effectiveSteeringAngle, speedFactor.
  unfold updateSteering.
  repeat case_match; simpl in *; try lia;
    rewrite front_two_alter by exact Hi; reflexivity.
Qed.

Lemma speedFactor_agrees v :
  Rabs (speed v) <= 2 * maxSpeed ->
  speedFactor v = Rmax 0 (1 - 0.5 * Rabs (speed v) / maxSpeed).
Proof.
  intros Hs. unfold speedFactor. pose proof (Rabs_pos (speed v)). clamp.
Qed.

(** * More properties *)

(** ** Keys *)

Lemma toLowerCase_ascii_idempotent c :
  toLowerCase_ascii (toLowerCase_ascii c) = toLowerCase_ascii c.
Proof. destruct c as [[] [] [] [] [] [] [] []]; reflexivity. Qed.

Lemma toLowerCase_idempotent s : toLowerCase (toLowerCase s) = toLowerCase s.
Proof.
  induction s as [|c s IH]; simpl; [reflexivity|].
  now rewrite toLowerCase_ascii_idempotent, IH.
Qed.

(** X1. The driving keys are read without regard to case: a key and its
    lower-case form do the same on key down and on key up, so [W] with
    Shift held still accelerates and the key [Shift] is the handbrake. The
    vehicle's own handlers have no case for [r], in either case of the
    letter. *)
Theorem driving_keys_ignore_case (key : string) (v : Vehicle) :
  handleKeyDown (toLowerCase key) v = handleKeyDown key v /\
  handleKeyUp (toLowerCase key) v = handleKeyUp key v /\
  forward (controls (handleKeyDown "W" v)) = true /\
  handbrake (controls (handleKeyDown "Shift" v)) = true /\
  handleKeyDown "R" v = v /\
  handleKeyDown "r" v = v.
Proof.
  unfold handleKeyDown, handleKeyUp. rewrite toLowerCase_idempotent.
  repeat split; reflexivity.
Qed.

Lemma driving_key_cases k :
  In k drivingKeys ->
  k = "w"%string \/ k = "s"%string \/ k = "a"%string \/ k = "d"%string \/
  k = " "%string \/ k = "shift"%string.
Proof. simpl. intuition auto. Qed.

(** X2. On a vehicle with no driving control set, pressing a driving key
    sets a control and releasing it gives the vehicle back as it was; a key
    that is neither a driving key nor [c] changes nothing, down or up. *)
Theorem tap_gives_the_vehicle_back (key : string) (v : Vehicle) :
  (In (toLowerCase key) drivingKeys -> idle (controls v) = true ->
   idle (controls (handleKeyDown key v)) = false /\ tap key v = v) /\
  (~ In (toLowerCase key) drivingKeys -> toLowerCase key <> "c"%string ->
   handleKeyDown key v = v /\ handleKeyUp key v = v).
Proof.
  split.
  - intros Hk Hi. apply driving_key_cases in Hk.
    destruct (idle_fields _ Hi) as (Hf & Hb & Hl & Hr & Hbr & Hh).
    destruct v as [s a r m wm wr cm [f b l rr bk hb ct] ch]. simpl in *. subst.
    unfold tap, handleKeyDown, handleKeyUp.
    destruct Hk as [-> | [-> | [-> | [-> | [-> | ->]]]]]; split; reflexivity.
  - intros Hk Hc. unfold handleKeyDown, handleKeyUp.
    assert (Hn : forall s, In s drivingKeys -> (toLowerCase key =? s)%string = false).
    { intros s Hs. apply String.eqb_neq. intros E. apply Hk. now rewrite E. }
    cbv zeta. rewrite !Hn by (simpl; auto 10).
    apply String.eqb_neq in Hc. rewrite Hc. split; reflexivity.
Qed.

(** A tap on [w] of the spawned vehicle. *)
Lemma tap_gives_the_vehicle_back_witness :
  In (toLowerCase "W") drivingKeys /\
  idle (controls (spawn false)) = true /\
  tap "W" (spawn false) = spawn false.
Proof.
  assert (Hk : In (toLowerCase "W") drivingKeys) by (simpl; auto).
  split; [exact Hk|]. split; [reflexivity|].
  destruct (tap_gives_the_vehicle_back "W" (spawn false)) as (Hd & _).
  destruct (Hd Hk eq_refl) as (_ & Ht). exact Ht.
Defined.

(** X3. The camera key changes the camera once per press: while [c] is held
    further key-down events of it do nothing; each press and release moves
    to another camera, and the third brings the first camera back with the
    vehicle as it was. *)
Theorem camera_key_cycles_three_views (v : Vehicle) :
  cameraToggle (controls v) = false ->
  handleKeyDown "c" (handleKeyDown "c" v) = handleKeyDown "c" v /\
  cameraMode (tap "c" v) <> cameraMode v /\
  cameraMode (tap "c" (tap "c" v)) <> cameraMode v /\
  cameraMode (tap "c" (tap "c" v)) <> cameraMode (tap "c" v) /\
  tap "c" (tap "c" (tap "c" v)) = v.
Proof.
  intros Hc.
  destruct v as [s a r m wm wr cm [f b l rr bk hb ct] ch]. simpl in Hc. subst ct.
  destruct cm; repeat split; try reflexivity; discriminate.
Qed.

(** The camera key on the spawned vehicle. *)
Lemma camera_key_cycles_three_views_witness :
  cameraToggle (controls (spawn false)) = false /\
  tap "c" (tap "c" (tap "c" (spawn false))) = spawn false.
Proof.
  split; [reflexivity|].
  destruct (camera_key_cycles_three_views (spawn false) eq_refl)
    as (_ & _ & _ & _ & H3).
  exact H3.
Defined.

(** ** Wheels and springs *)

Section Wheels.
Context `{Babylon}.

Lemma updateSteering_wheels v i :
  wheelRaycasts (updateSteering v) = wheelRaycasts v /\
  Wheel.position <$> wheelMeshes (updateSteering v) !! i
  = Wheel.position <$> wheelMeshes v !! i.
Proof.
  unfold updateSteering. repeat case_match; simpl; split; try reflexivity;
    destruct i as [|[|i]]; destruct (wheelMeshes v) as [|a [|b wl]]; reflexivity.
Qed.

Lemma updateSpeed_wheels v :
  wheelRaycasts (updateSpeed v) = wheelRaycasts v /\
  wheelMeshes (updateSpeed v) = wheelMeshes v.
Proof. unfold updateSpeed. step_cases; auto. Qed.

Lemma adjustToTerrain_wheels f v :
  wheelRaycasts (adjustToTerrain f v) = wheelRaycasts v /\
  wheelMeshes (adjustToTerrain f v) = wheelMeshes v.
Proof. unfold adjustToTerrain, adjustPitchAndRoll. step_cases; auto. Qed.

Lemma updateBasicPhysics_wheels f v :
  wheelRaycasts (updateBasicPhysics f v) = wheelRaycasts v /\
  wheelMeshes (updateBasicPhysics f v) = wheelMeshes v.
Proof.
  unfold updateBasicPhysics. destruct (Req_dec_T (speed v) 0); [auto|].
  match goal with
  | |- context [adjustToTerrain f ?w] =>
      destruct (adjustToTerrain_wheels f w) as [-> ->]
  end.
  auto.
Qed.

Lemma update_wheels f v :
  wheelRaycasts (update f v) = wheelRaycasts (beforePhysics f v) /\
  wheelMeshes (update f v) = wheelMeshes (beforePhysics f v).
Proof.
  rewrite update_unfold. destruct (chassisBody v); [auto|].
  apply updateBasicPhysics_wheels.
Qed.

Lemma beforePhysics_raycast f v i :
  wheelRaycasts (beforePhysics f v) !! i
  = updateWheelRaycast f i <$> wheelRaycasts v !! i.
Proof.
  unfold beforePhysics. simpl. rewrite list_lookup_imap.
  destruct (updateSpeed_wheels (updateSteering v)) as [-> _].
  destruct (updateSteering_wheels v i) as [-> _]. reflexivity.
Qed.

Lemma beforePhysics_wheel f v i wheel raycast :
  wheelMeshes v !! i = Some wheel ->
  wheelRaycasts v !! i = Some raycast ->
  exists wheel',
    wheelMeshes (beforePhysics f v) !! i = Some wheel' /\
    Vector3.x (Wheel.position wheel') = Vector3.x (Wheel.position wheel) /\
    Vector3.z (Wheel.position wheel') = Vector3.z (Wheel.position wheel) /\
    Vector3.y (Wheel.position wheel')
    = match lastHitPoint (updateWheelRaycast f i raycast) with
      | Some _ =>
          wheelRadius
          - compression (suspension (updateWheelRaycast f i raycast))
            / suspensionTravel * suspensionTravel
      | None => wheelRadius
      end.
Proof.
  intros Hw Hr. unfold beforePhysics. simpl.
  rewrite list_lookup_fmap, !list_lookup_imap.
  destruct (updateSpeed_wheels (updateSteering v)) as [-> ->].
  destruct (updateSteering_wheels v i) as [-> Hp].
  rewrite Hr, Hw in *. simpl.
  destruct (wheelMeshes (updateSteering v) !! i) as [w1|]; [|discriminate].
  simpl in Hp. injection Hp as Hp. simpl.
  eexists. split; [reflexivity|].
  destruct (lastHitPoint (updateWheelRaycast f i raycast)); simpl;
    rewrite Hp; auto.
Qed.

Lemma beforePhysics_lengths f v :
  List.length (wheelMeshes (beforePhysics f v)) = List.length (wheelMeshes v) /\
  List.length (wheelRaycasts (beforePhysics f v)) = List.length (wheelRaycasts v).
Proof.
  unfold beforePhysics. simpl. rewrite length_fmap, !length_imap.
  destruct (updateSpeed_wheels (updateSteering v)) as [-> ->].
  destruct (updateSteering_wheels v 0) as [-> _].
  split; [|reflexivity].
  unfold updateSteering. repeat case_match; simpl; rewrite ?length_alter; reflexivity.
Qed.

Lemma updateWheelRaycast_spring f i raycast :
  0 <= compression (suspension (updateWheelRaycast f i raycast)) /\
  velocity (suspension (updateWheelRaycast f i raycast)) = 0 /\
  force (suspension (updateWheelRaycast f i raycast))
  = suspensionStiffness * compression (suspension (updateWheelRaycast f i raycast)) /\
  (lastHitPoint (updateWheelRaycast f i raycast) = None ->
   compression (suspension (updateWheelRaycast f i raycast)) = 0).
Proof.
  unfold updateWheelRaycast. destruct pickWithRay; simpl.
  - split; [lra|]. split; [reflexivity|]. split; [lra | reflexivity].
  - split; [apply Rmax_l|]. split; [lra|]. split; [reflexivity | discriminate].
Qed.

Lemma update_puts_on_spring f v i old before :
  wheelMeshes v !! i = Some old ->
  wheelRaycasts v !! i = Some before ->
  exists wheel,
    wheelMeshes (update f v) !! i = Some wheel /\
    wheelRaycasts (update f v) !! i = Some (updateWheelRaycast f i before) /\
    Vector3.x (Wheel.position wheel) = Vector3.x (Wheel.position old) /\
    Vector3.z (Wheel.position wheel) = Vector3.z (Wheel.position old) /\
    wheel_on_its_spring wheel (updateWheelRaycast f i before).
Proof.
  intros Hw Hr.
  destruct (update_wheels f v) as [Er Ew].
  destruct (beforePhysics_wheel f v i old before Hw Hr)
    as (w' & Hw' & Hx' & Hz' & Hy').
  destruct (updateWheelRaycast_spring f i before) as (Hc & Hv & Hf & Hn).
  exists w'. rewrite Er, Ew, beforePhysics_raycast, Hr.
  split; [exact Hw'|]. split; [reflexivity|].
  split; [exact Hx'|]. split; [exact Hz'|].
  unfold wheel_on_its_spring. repeat split; try assumption.
  rewrite Hy'. destruct (lastHitPoint (updateWheelRaycast f i before)).
  - unfold suspensionTravel. lra.
  - rewrite Hn by reflexivity. lra.
Qed.

Lemma update_keeps_the_wheels f v :
  List.length (wheelMeshes (update f v)) = List.length (wheelMeshes v) /\
  List.length (wheelRaycasts (update f v)) = List.length (wheelRaycasts v).
Proof.
  destruct (update_wheels f v) as [-> ->]. apply beforePhysics_lengths.
Qed.

Lemma handleKeyDown_wheels key v :
  wheelMeshes (handleKeyDown key v) = wheelMeshes v /\
  wheelRaycasts (handleKeyDown key v) = wheelRaycasts v /\
  chassisBody (handleKeyDown key v) = chassisBody v.
Proof. unfold handleKeyDown, toggleCamera. step_cases; auto. Qed.

Lemma handleKeyUp_wheels key v :
  wheelMeshes (handleKeyUp key v) = wheelMeshes v /\
  wheelRaycasts (handleKeyUp key v) = wheelRaycasts v /\
  chassisBody (handleKeyUp key v) = chassisBody v.
Proof. unfold handleKeyUp. step_cases; auto. Qed.

Lemma reset_wheels v :
  wheelMeshes (reset v) = wheelMeshes v /\
  wheelRaycasts (reset v) = wheelRaycasts v.
Proof. split; reflexivity. Qed.

End Wheels.

(** On flat ground under the wheel, with the sample engine, the ray is as
    long as the ground is far. *)
Lemma updateWheelRaycast_on_flat_ground height i raycast :
  compression (suspension (updateWheelRaycast (flatFrame height) i raycast))
  = Rmax 0 (suspensionRestLength + wheelRadius - Rabs height).
Proof.
  unfold updateWheelRaycast. cbn.
  replace ((0 - 0) * (0 - 0) + (0 - height) * (0 - height) + (0 - 0) * (0 - 0))
    with (Rsqr height) by (unfold Rsqr; lra).
  now rewrite sqrt_Rsqr_abs.
Qed.

Lemma front_left_on_flat_ground raycast :
  wheelRaycasts (update (flatFrame (-1)) (spawn false)) !! 0%nat = Some raycast ->
  compression (suspension raycast) = 0.3.
Proof.
  destruct (update_wheels (flatFrame (-1)) (spawn false)) as [-> _].
  rewrite beforePhysics_raycast.
  intros E. injection E as <-.
  rewrite updateWheelRaycast_on_flat_ground.
  rewrite Rabs_left by lra. unfold suspensionRestLength, wheelRadius. clamp.
Qed.

(** X4. A frame puts the wheels on their springs, whatever the vehicle was
    before, as long as each wheel has a raycast of its index (without one
    the source throws): the wheel keeps its [x] and [z] and is lowered from
    [wheelRadius] by the compression of its raycast, which is never
    negative, is zero in the air, comes with the force
    [suspensionStiffness] times the compression and with a suspension
    velocity of zero. The frame keeps the number of wheels and of raycasts,
    and the key handlers and [reset] leave both arrays as they are. *)
Theorem wheels_ride_on_their_springs `{Babylon} (f : Frame) (v : Vehicle) :
  List.length (wheelMeshes v) = List.length (wheelRaycasts v) ->
  List.length (wheelMeshes (update f v)) = List.length (wheelMeshes v) /\
  List.length (wheelRaycasts (update f v)) = List.length (wheelRaycasts v) /\
  (forall (i : nat) (old : Wheel.t),
      wheelMeshes v !! i = Some old ->
      exists (wheel : Wheel.t) (raycast : WheelRaycast),
        wheelMeshes (update f v) !! i = Some wheel /\
        wheelRaycasts (update f v) !! i = Some raycast /\
        Vector3.x (Wheel.position wheel) = Vector3.x (Wheel.position old) /\
        Vector3.z (Wheel.position wheel) = Vector3.z (Wheel.position old) /\
        wheel_on_its_spring wheel raycast) /\
  (forall key : string,
      wheelMeshes (handleKeyDown key v) = wheelMeshes v /\
      wheelRaycasts (handleKeyDown key v) = wheelRaycasts v /\
      wheelMeshes (handleKeyUp key v) = wheelMeshes v /\
      wheelRaycasts (handleKeyUp key v) = wheelRaycasts v) /\
  wheelMeshes (reset v) = wheelMeshes v /\
  wheelRaycasts (reset v) = wheelRaycasts v.
Proof.
  intros Hlen.
  destruct (update_keeps_the_wheels f v) as [Lm Lr].
  split; [exact Lm|]. split; [exact Lr|]. split; [|split].
  - intros i old Hw.
    assert (Hi : (i < List.length (wheelRaycasts v))%nat)
      by (rewrite <- Hlen; now apply lookup_lt_Some with old).
    destruct (lookup_lt_is_Some_2 _ _ Hi) as [before Hr].
    destruct (update_puts_on_spring f v i old before Hw Hr)
      as (wheel & Hw' & Hr' & Hx & Hz & Hs).
    exists wheel, (updateWheelRaycast f i before). auto.
  - intros key.
    destruct (handleKeyDown_wheels key v) as (-> & -> & _).
    destruct (handleKeyUp_wheels key v) as (-> & -> & _). auto.
  - apply reset_wheels.
Qed.

(** The front left wheel of the spawned vehicle after a frame with flat
    ground one unit below the wheel: the ray of 1.3 is 0.3 too long, so the
    spring is compressed by 0.3, pushes with 9 and holds the wheel at 0.4. *)
Lemma wheels_ride_on_their_springs_witness :
  List.length (wheelMeshes (spawn false)) = List.length (wheelRaycasts (spawn false)) /\
  exists (wheel : Wheel.t) (raycast : WheelRaycast),
    wheelMeshes (update (flatFrame (-1)) (spawn false)) !! 0%nat = Some wheel /\
    wheelRaycasts (update (flatFrame (-1)) (spawn false)) !! 0%nat = Some raycast /\
    compression (suspension raycast) = 0.3 /\
    force (suspension raycast) = 9 /\
    velocity (suspension raycast) = 0 /\
    Vector3.y (Wheel.position wheel) = 0.4.
Proof.
  split; [reflexivity|].
  destruct (wheels_ride_on_their_springs (flatFrame (-1)) (spawn false) eq_refl)
    as (_ & _ & Hs & _).
  destruct (Hs 0%nat _ eq_refl)
    as (wheel & raycast & Hw & Hr & _ & _ & Hy & _ & Hv & Hf & _).
  exists wheel, raycast.
  pose proof (front_left_on_flat_ground raycast Hr) as Hc.
  rewrite Hc in Hy, Hf. unfold wheelRadius in Hy. unfold suspensionStiffness in Hf.
  repeat split; try assumption; lra.
Defined.

(** ** The mesh and the heading over a frame *)

Section Mesh_and_heading.

Context `{Babylon}.

Lemma update_chassisBody f v : chassisBody (update f v) = chassisBody v.
Proof.
  unfold update. simpl.
  destruct (updateSpeed_rest (updateSteering v)) as (_ & _ & ->).
  destruct (updateSteering_rest v) as (_ & _ & ->).
  destruct (chassisBody v) eqn:E; simpl.
  - destruct (updateSpeed_rest (updateSteering v)) as (_ & _ & ->).
    destruct (updateSteering_rest v) as (_ & _ & ->). exact E.
  - unfold updateBasicPhysics. destruct Req_dec_T; simpl.
    + destruct (updateSpeed_rest (updateSteering v)) as (_ & _ & ->).
      destruct (updateSteering_rest v) as (_ & _ & ->). exact E.
    + unfold adjustToTerrain, adjustPitchAndRoll. repeat case_match; simpl;
        destruct (updateSpeed_rest (updateSteering v)) as (_ & _ & ->);
        destruct (updateSteering_rest v) as (_ & _ & ->); exact E.
Qed.

Lemma update_with_chassis f v :
  chassisBody v = true ->
  mesh (update f v) = mesh v /\ rotation (update f v) = rotation v.
Proof.
  intros Hc. rewrite update_unfold, Hc.
  destruct (beforePhysics_motion f v) as (_ & _ & -> & ->). auto.
Qed.

Lemma update_at_rest f v :
  speed (update f v) = 0 ->
  mesh (update f v) = mesh v /\ rotation (update f v) = rotation v.
Proof.
  intros Hs. rewrite update_unfold in *.
  destruct (beforePhysics_motion f v) as (Es & _ & Er & Em).
  destruct (chassisBody v); [rewrite Er, Em; auto|].
  rewrite updateBasicPhysics_speed in Hs.
  rewrite (updateBasicPhysics_at_rest f _ Hs). rewrite Er, Em; auto.
Qed.

Lemma updateBasicPhysics_mesh_rotation f v :
  speed v <> 0 ->
  Mesh.rotation (mesh (updateBasicPhysics f v))
  = Vector3.set_y (turned v) (Mesh.rotation (mesh v)).
Proof.
  intros Hs. unfold updateBasicPhysics.
  destruct (Req_dec_T (speed v) 0) as [E|_]; [contradiction|].
  rewrite adjustToTerrain_mesh_rotation. reflexivity.
Qed.

Lemma update_faces_heading f v :
  mesh_faces_heading v -> mesh_faces_heading (update f v).
Proof.
  unfold mesh_faces_heading. intros Hv.
  destruct (Req_dec_T (speed (update f v)) 0) as [Hs|Hs].
  - destruct (update_at_rest f v Hs) as (-> & ->). exact Hv.
  - destruct (chassisBody v) eqn:Hc.
    + destruct (update_with_chassis f v Hc) as (-> & ->). exact Hv.
    + rewrite update_unfold, Hc in *.
      destruct (beforePhysics_motion f v) as (_ & _ & Er & Em).
      rewrite updateBasicPhysics_speed in Hs.
      rewrite (updateBasicPhysics_mesh_rotation f _ Hs).
      destruct (updateBasicPhysics_moves f _ Hs) as (-> & _).
      rewrite Em, Hv. reflexivity.
Qed.

Lemma fold_step_invariant_where (P : Vehicle -> Prop) (Q : Event -> Prop) :
  (forall v e, Q e -> P v -> P (step v e)) ->
  forall events v, Forall Q events -> P v -> P (fold_left step events v).
Proof.
  intros Hstep events. induction events as [|e events IH]; intros v HQ Hv; simpl.
  - exact Hv.
  - inversion HQ; subst. apply IH; [assumption|]. now apply Hstep.
Qed.

Lemma step_faces_heading v e :
  e <> KeyDown "r" -> mesh_faces_heading v -> mesh_faces_heading (step v e).
Proof.
  unfold mesh_faces_heading. intros He Hv. destruct e as [key|key|f]; simpl.
  - destruct (key =? "r")%string eqn:E.
    + apply String.eqb_eq in E. subst. contradiction.
    + destruct (handleKeyDown_motion key v) as (_ & _ & -> & ->). exact Hv.
  - destruct (handleKeyUp_motion key v) as (_ & _ & -> & ->). exact Hv.
  - now apply update_faces_heading.
Qed.

Lemma step_heading_with_chassis v e :
  chassisBody v = true /\ rotation v = 0 ->
  chassisBody (step v e) = true /\ rotation (step v e) = 0.
Proof.
  intros (Hc & Hr). destruct e as [key|key|f]; simpl.
  - destruct (handleKeyDown_wheels key (if (key =? "r")%string then reset v else v))
      as (_ & _ & ->).
    destruct (handleKeyDown_motion key (if (key =? "r")%string then reset v else v))
      as (_ & _ & -> & _).
    destruct (key =? "r")%string; auto.
  - destruct (handleKeyUp_wheels key v) as (_ & _ & ->).
    destruct (handleKeyUp_motion key v) as (_ & _ & -> & _). auto.
  - rewrite update_chassisBody.
    destruct (update_with_chassis f v Hc) as (_ & ->). auto.
Qed.

End Mesh_and_heading.

(** X5. When the Havok set-up has made a chassis body, [update] leaves the
    mesh and the heading to the engine: a frame changes neither, and since
    nothing else writes the heading it is 0 for the whole drive, as are the
    compass needle and the direction arrow of the minimap. *)
Theorem chassis_body_stops_the_integrator `{Babylon} (events : list Event) :
  rotation (run true events) = 0 /\
  UI.compassNeedle (run true events) = 0 /\
  UI.playerDirection (run true events) = 0 /\
  (forall (f : Frame) (v : Vehicle),
      chassisBody v = true ->
      mesh (update f v) = mesh v /\ rotation (update f v) = rotation v).
Proof.
  assert (Hr : chassisBody (run true events) = true /\ rotation (run true events) = 0).
  { unfold run. apply fold_step_invariant.
    - intros v e. apply step_heading_with_chassis.
    - split; reflexivity. }
  destruct Hr as (_ & Hr). unfold UI.compassNeedle, UI.playerDirection.
  rewrite Hr. repeat split; try lra.
  - apply update_with_chassis; assumption.
  - apply update_with_chassis; assumption.
Qed.

(** A frame with [w] held on a vehicle with a chassis body. *)
Lemma chassis_body_stops_the_integrator_witness :
  chassisBody (handleKeyDown "w" (spawn true)) = true /\
  mesh (update emptyFrame (handleKeyDown "w" (spawn true)))
  = mesh (handleKeyDown "w" (spawn true)).
Proof.
  split; [reflexivity|].
  destruct (chassis_body_stops_the_integrator []) as (_ & _ & _ & Hf).
  destruct (Hf emptyFrame (handleKeyDown "w" (spawn true)) eq_refl) as (Hm & _).
  exact Hm.
Defined.



(** X7. As long as nobody presses [r], the mesh faces where the vehicle is
    heading: its rotation about the vertical is the heading and its two
    other Euler angles are 0, from the spawn state on. *)
Theorem mesh_yaw_is_the_heading `{Babylon} (havok : bool) (events : list Event) :
  no_reset events ->
  Mesh.rotation (mesh (run havok events))
  = Vector3.mk 0 (rotation (run havok events)) 0.
Proof.
  intros Hn. change (mesh_faces_heading (run havok events)).
  unfold run. apply (fold_step_invariant_where _ (fun e => e <> KeyDown "r")).
  - intros v e. apply step_faces_heading.
  - exact Hn.
  - reflexivity.
Qed.

(** A first frame with [w] and [d] held. *)
Lemma mesh_yaw_is_the_heading_witness :
  no_reset [KeyDown "w"; KeyDown "d"; BeforeRender emptyFrame] /\
  Mesh.rotation (mesh (run false [KeyDown "w"; KeyDown "d"; BeforeRender emptyFrame]))
  = Vector3.mk 0 (rotation (run false [KeyDown "w"; KeyDown "d";
                                       BeforeRender emptyFrame])) 0.
Proof.
  assert (Hn : no_reset [KeyDown "w"; KeyDown "d"; BeforeRender emptyFrame])
    by (repeat constructor; discriminate).
  split; [exact Hn|].
  apply (mesh_yaw_is_the_heading false _ Hn).
Defined.

(** ** Holding a control over many frames *)

Lemma INR_lit (z : Z) : (0 <= z)%Z -> INR (Z.to_nat z) = IZR z.
Proof. intros Hz. rewrite INR_IZR_INZ, Z2Nat.id by exact Hz. reflexivity. Qed.

Lemma iter_clamp_down (a d s : R) (n : nat) :
  0 <= d -> a <= s ->
  Nat.iter n (fun s => Rmax a (s - d)) s = Rmax a (s - d * INR n).
Proof.
  intros Hd Hs. induction n as [|n IH].
  - simpl. unfold Rmax. destruct Rle_dec; lra.
  - rewrite Nat.iter_succ, IH, S_INR. unfold Rmax. repeat destruct Rle_dec; nra.
Qed.

Lemma iter_clamp_up (b d s : R) (n : nat) :
  0 <= d -> s <= b ->
  Nat.iter n (fun s => Rmin b (s + d)) s = Rmin b (s + d * INR n).
Proof.
  intros Hd Hs. induction n as [|n IH].
  - simpl. unfold Rmin. destruct Rle_dec; lra.
  - rewrite Nat.iter_succ, IH, S_INR. unfold Rmin. repeat destruct Rle_dec; nra.
Qed.

Lemma iter_ext (g h : R -> R) (P : R -> Prop) (s : R) (n : nat) :
  P s -> (forall x, P x -> P (g x) /\ g x = h x) ->
  Nat.iter n g s = Nat.iter n h s /\ P (Nat.iter n g s).
Proof.
  intros Hs Hg. induction n as [|n [IH IP]]; [simpl; auto|]. rewrite !Nat.iter_succ.
  destruct (Hg _ IP) as (HP & E). split; [|exact HP]. rewrite E. now rewrite IH.
Qed.

Section Holding.

Context `{Babylon}.

Lemma ticks_speed_iter frames n v (g : R -> R) :
  (forall f w, controls w = controls v -> speed (update f w) = g (speed w)) ->
  speed (ticks frames n v) = Nat.iter n g (speed v).
Proof.
  intros Hg. induction n as [|n IH]; [reflexivity|].
  cbn [ticks]. rewrite Nat.iter_succ, Hg by apply ticks_controls. now rewrite IH.
Qed.

Lemma ticks_steering_iter frames n v (g : R -> R) :
  (forall f w, controls w = controls v ->
               steeringAngle (update f w) = g (steeringAngle w)) ->
  steeringAngle (ticks frames n v) = Nat.iter n g (steeringAngle v).
Proof.
  intros Hg. induction n as [|n IH]; [reflexivity|].
  cbn [ticks]. rewrite Nat.iter_succ, Hg by apply ticks_controls. now rewrite IH.
Qed.

Lemma update_braked f v :
  brake (controls v) = true -> speed (update f v) = braked (speed v).
Proof.
  intros Hb. rewrite update_speed. unfold updateSpeed, braked. rewrite Hb.
  step_cases.
Qed.

Lemma update_reversing f v :
  brake (controls v) = false -> forward (controls v) = false ->
  backward (controls v) = true ->
  speed (update f v) = Rmax (- maxSpeed / 2) (speed v - acceleration).
Proof.
  intros Hb Hf Hk. rewrite update_speed. unfold updateSpeed.
  rewrite Hb, Hf, Hk. reflexivity.
Qed.

Lemma update_centres f v :
  left (controls v) = false -> right (controls v) = false ->
  steeringAngle (update f v) = centred (steeringAngle v).
Proof.
  intros Hl Hr. rewrite update_steeringAngle. now apply updateSteering_centres.
Qed.

Lemma update_steers_right f v :
  left (controls v) = false -> right (controls v) = true ->
  steeringAngle (update f v) = Rmin maxSteeringAngle (steeringAngle v + turnSpeed).
Proof.
  intros Hl Hr. rewrite update_steeringAngle. now apply updateSteering_right.
Qed.

Lemma update_steers_left f v :
  left (controls v) = true -> right (controls v) = false ->
  steeringAngle (update f v)
  = Rmax (- maxSteeringAngle) (steeringAngle v - turnSpeed).
Proof.
  intros Hl Hr. rewrite update_steeringAngle. unfold updateSteering.
  rewrite Hl. simpl. rewrite Hl. simpl. rewrite Hr. step_cases.
Qed.

Lemma update_steers_both f v :
  left (controls v) = true -> right (controls v) = true ->
  steeringAngle (update f v)
  = Rmin maxSteeringAngle
         (Rmax (- maxSteeringAngle) (steeringAngle v - turnSpeed) + turnSpeed).
Proof.
  intros Hl Hr. rewrite update_steeringAngle. unfold updateSteering.
  rewrite Hl. simpl. rewrite Hl. simpl. rewrite Hr. step_cases.
Qed.

End Holding.

Lemma braked_from_above s :
  0 <= s -> 0 <= braked s /\ braked s = Rmax 0 (s - brakeForce).
Proof. intros Hs. unfold braked. repeat destruct Rgt_dec; repeat destruct Rlt_dec; clamp. Qed.

Lemma braked_from_below s :
  s <= 0 -> braked s <= 0 /\ braked s = Rmin 0 (s + brakeForce).
Proof. intros Hs. unfold braked. repeat destruct Rgt_dec; repeat destruct Rlt_dec; clamp. Qed.

Lemma centred_from_above a :
  0 <= a -> 0 <= centred a /\ centred a = Rmax 0 (a - turnSpeed / 2).
Proof. intros Hs. unfold centred. repeat destruct Rgt_dec; repeat destruct Rlt_dec; clamp. Qed.

Lemma centred_from_below a :
  a <= 0 -> centred a <= 0 /\ centred a = Rmin 0 (a + turnSpeed / 2).
Proof. intros Hs. unfold centred. repeat destruct Rgt_dec; repeat destruct Rlt_dec; clamp. Qed.

(** X8. Holding the brake, whatever else is held: after [n] frames a speed
    [s] that was not negative is [max(0, s - 1.5 n)] and one that was not
    positive is [min(0, s + 1.5 n)]; so a vehicle within the speed caps
    stands still after 54 frames and stays so. *)
Theorem braking_stops_the_vehicle `{Babylon}
        (frames : nat -> Frame) (v : Vehicle) (n : nat) :
  brake (controls v) = true ->
  (0 <= speed v ->
   speed (ticks frames n v) = Rmax 0 (speed v - brakeForce * INR n)) /\
  (speed v <= 0 ->
   speed (ticks frames n v) = Rmin 0 (speed v + brakeForce * INR n)) /\
  (- maxSpeed / 2 <= speed v <= maxSpeed -> (54 <= n)%nat ->
   speed (ticks frames n v) = 0).
Proof.
  intros Hb.
  assert (E : speed (ticks frames n v) = Nat.iter n braked (speed v)).
  { apply ticks_speed_iter. intros f w Hw. apply update_braked. now rewrite Hw. }
  assert (Hpos : 0 <= speed v ->
                 speed (ticks frames n v) = Rmax 0 (speed v - brakeForce * INR n)).
  { intros Hs. rewrite E.
    destruct (iter_ext braked (fun s => Rmax 0 (s - brakeForce)) (fun s => 0 <= s)
                       (speed v) n Hs) as [-> _].
    - intros x Hx. apply braked_from_above, Hx.
    - apply iter_clamp_down; [unfold brakeForce; lra | exact Hs]. }
  assert (Hneg : speed v <= 0 ->
                 speed (ticks frames n v) = Rmin 0 (speed v + brakeForce * INR n)).
  { intros Hs. rewrite E.
    destruct (iter_ext braked (fun s => Rmin 0 (s + brakeForce)) (fun s => s <= 0)
                       (speed v) n Hs) as [-> _].
    - intros x Hx. apply braked_from_below, Hx.
    - apply iter_clamp_up; [unfold brakeForce; lra | exact Hs]. }
  split; [exact Hpos|]. split; [exact Hneg|].
  intros Hr Hn. apply le_INR in Hn.
  change 54%nat with (Z.to_nat 54) in Hn. rewrite INR_lit in Hn by lia.
  destruct (Rle_dec 0 (speed v)) as [Hs|Hs].
  - rewrite (Hpos Hs). clamp; nra.
  - rewrite Hneg by lra. clamp; nra.
Qed.

(** Braking from the cap in an empty scene. *)
Lemma braking_stops_the_vehicle_witness :
  brake (controls (set_speed maxSpeed (handleKeyDown " " (spawn false)))) = true /\
  speed (ticks (fun _ => emptyFrame) 54
               (set_speed maxSpeed (handleKeyDown " " (spawn false)))) = 0.
Proof.
  split; [reflexivity|].
  destruct (braking_stops_the_vehicle
              (fun _ => emptyFrame)
              (set_speed maxSpeed (handleKeyDown " " (spawn false))) 54 eq_refl)
    as (_ & _ & Hstop).
  apply Hstop; [simpl; unfold maxSpeed; lra | lia].
Defined.

(** X9. Holding [backward] alone from rest: after [n] frames the speed is
    [max(-maxSpeed/2, -0.5 n)], so the vehicle reverses faster frame by
    frame, is at the reverse cap of -40 after 80 frames and stays there. *)
Theorem reversing_settles_at_half_the_cap `{Babylon}
        (frames : nat -> Frame) (v : Vehicle) (n : nat) :
  brake (controls v) = false -> forward (controls v) = false ->
  backward (controls v) = true -> speed v = 0 ->
  speed (ticks frames n v) = Rmax (- maxSpeed / 2) (- (acceleration * INR n)) /\
  ((n < 80)%nat -> speed (ticks frames (S n) v) < speed (ticks frames n v)) /\
  ((80 <= n)%nat -> speed (ticks frames n v) = -40).
Proof.
  intros Hb Hf Hk Hs.
  assert (E : forall m, speed (ticks frames m v)
                        = Rmax (- maxSpeed / 2) (- (acceleration * INR m))).
  { intros m.
    rewrite (ticks_speed_iter frames m v (fun s => Rmax (- maxSpeed / 2) (s - acceleration))).
    - rewrite iter_clamp_down, Hs by (rewrite ?Hs; clamp).
      f_equal. lra.
    - intros f w Hw. apply update_reversing; now rewrite Hw. }
  split; [apply E|]. split.
  - intros Hn. rewrite !E, S_INR. apply lt_INR in Hn.
    change 80%nat with (Z.to_nat 80) in Hn. rewrite INR_lit in Hn by lia. clamp.
  - intros Hn. rewrite E. apply le_INR in Hn.
    change 80%nat with (Z.to_nat 80) in Hn. rewrite INR_lit in Hn by lia. clamp.
Qed.

(** Reversing from the spawn state in an empty scene. *)
Lemma reversing_settles_at_half_the_cap_witness :
  backward (controls (handleKeyDown "s" (spawn false))) = true /\
  speed (ticks (fun _ => emptyFrame) 80 (handleKeyDown "s" (spawn false))) = -40.
Proof.
  split; [reflexivity|].
  destruct (reversing_settles_at_half_the_cap
              (fun _ => emptyFrame) (handleKeyDown "s" (spawn false)) 80
              eq_refl eq_refl eq_refl eq_refl) as (_ & _ & Hcap).
  apply Hcap. lia.
Defined.

Section Throttle.

Context `{Babylon}.

Lemma update_forward_gain f v :
  brake (controls v) = false -> forward (controls v) = true ->
  speed v <= maxSpeed ->
  speed v <= speed (update f v) /\
  Rmin maxSpeed (speed v + 0.15) <= speed (update f v) <= maxSpeed.
Proof.
  intros Hb Hf Hs. rewrite update_speed, (updateSpeed_forward v Hb Hf).
  pose proof (accelerationFactor_bounds (speed v)) as Hk.
  set (k := 1 - Rmin 0.7 (Rabs (speed v) / maxSpeed)) in *. clearbody k. clamp.
Qed.

Lemma ticks_forward_gain frames n v :
  brake (controls v) = false -> forward (controls v) = true ->
  speed v <= maxSpeed ->
  Rmin maxSpeed (speed v + 0.15 * INR n) <= speed (ticks frames n v) <= maxSpeed.
Proof.
  intros Hb Hf Hs. induction n as [|n IH].
  - simpl. clamp.
  - cbn [ticks].
    destruct (update_forward_gain (frames n) (ticks frames n v)) as (_ & Hg).
    + now rewrite ticks_controls.
    + now rewrite ticks_controls.
    + apply IH.
    + rewrite S_INR. clamp.
Qed.

End Throttle.

(** X10. Holding [forward] without the brake, whatever [backward] says: the
    speed never falls from one frame to the next and never passes
    [maxSpeed]; from any speed within the caps it is exactly [maxSpeed]
    after 800 frames, from rest or forward motion after 534, and stays
    there. *)
Theorem full_throttle_reaches_top_speed `{Babylon}
        (frames : nat -> Frame) (v : Vehicle) (n : nat) :
  brake (controls v) = false -> forward (controls v) = true ->
  - maxSpeed / 2 <= speed v <= maxSpeed ->
  speed (ticks frames n v) <= speed (ticks frames (S n) v) /\
  speed (ticks frames n v) <= maxSpeed /\
  ((800 <= n)%nat -> speed (ticks frames n v) = maxSpeed) /\
  (0 <= speed v -> (534 <= n)%nat -> speed (ticks frames n v) = maxSpeed).
Proof.
  intros Hb Hf Hs.
  pose proof (ticks_forward_gain frames n v Hb Hf ltac:(lra)) as Hn.
  split; [|split; [lra|split]].
  - cbn [ticks]. apply update_forward_gain; [now rewrite ticks_controls.. | lra].
  - intros Hm. apply le_INR in Hm.
    change 800%nat with (Z.to_nat 800) in Hm. rewrite INR_lit in Hm by lia. clamp.
  - intros H0 Hm. apply le_INR in Hm.
    change 534%nat with (Z.to_nat 534) in Hm. rewrite INR_lit in Hm by lia. clamp.
Qed.

(** Full throttle from the spawn state in an empty scene. *)
Lemma full_throttle_reaches_top_speed_witness :
  forward (controls (handleKeyDown "w" (spawn false))) = true /\
  speed (ticks (fun _ => emptyFrame) 534 (handleKeyDown "w" (spawn false)))
  = maxSpeed.
Proof.
  split; [reflexivity|].
  destruct (full_throttle_reaches_top_speed
              (fun _ => emptyFrame) (handleKeyDown "w" (spawn false)) 534
              eq_refl eq_refl) as (_ & _ & _ & Htop).
  - simpl. unfold maxSpeed. lra.
  - apply Htop; [simpl; lra | lia].
Defined.

(** X11. Holding a steering key from an angle within the lock: [right]
    alone gives [min(maxSteeringAngle, a + 0.05 n)] after [n] frames,
    [left] alone gives [max(-maxSteeringAngle, a - 0.05 n)], and both
    together leave the angle where it is as long as it is at least
    [turnSpeed] above the left lock. *)
Theorem steering_ramps_to_the_lock `{Babylon}
        (frames : nat -> Frame) (v : Vehicle) (n : nat) :
  - maxSteeringAngle <= steeringAngle v <= maxSteeringAngle ->
  (left (controls v) = false -> right (controls v) = true ->
   steeringAngle (ticks frames n v)
   = Rmin maxSteeringAngle (steeringAngle v + turnSpeed * INR n)) /\
  (left (controls v) = true -> right (controls v) = false ->
   steeringAngle (ticks frames n v)
   = Rmax (- maxSteeringAngle) (steeringAngle v - turnSpeed * INR n)) /\
  (left (controls v) = true -> right (controls v) = true ->
   - maxSteeringAngle + turnSpeed <= steeringAngle v ->
   steeringAngle (ticks frames n v) = steeringAngle v).
Proof.
  intros Hs. split; [|split].
  - intros Hl Hr.
    rewrite (ticks_steering_iter frames n v
               (fun a => Rmin maxSteeringAngle (a + turnSpeed))).
    + apply iter_clamp_up; [unfold turnSpeed; lra | lra].
    + intros f w Hw. apply update_steers_right; now rewrite Hw.
  - intros Hl Hr.
    rewrite (ticks_steering_iter frames n v
               (fun a => Rmax (- maxSteeringAngle) (a - turnSpeed))).
    + apply iter_clamp_down; [unfold turnSpeed; lra | lra].
    + intros f w Hw. apply update_steers_left; now rewrite Hw.
  - intros Hl Hr Ha.
    rewrite (ticks_steering_iter frames n v
               (fun a => Rmin maxSteeringAngle
                              (Rmax (- maxSteeringAngle) (a - turnSpeed) + turnSpeed))).
    + induction n as [|n IH]; [reflexivity|].
      rewrite Nat.iter_succ, IH. clamp.
    + intros f w Hw. apply update_steers_both; now rewrite Hw.
Qed.

(** Ten frames of [d] from the spawn state: half a radian to the right. *)
Lemma steering_ramps_to_the_lock_witness :
  right (controls (handleKeyDown "d" (spawn false))) = true /\
  steeringAngle (ticks (fun _ => emptyFrame) 10 (handleKeyDown "d" (spawn false)))
  = Rmin maxSteeringAngle (0 + turnSpeed * INR 10).
Proof.
  split; [reflexivity|].
  destruct (steering_ramps_to_the_lock
              (fun _ => emptyFrame) (handleKeyDown "d" (spawn false)) 10)
    as (Hright & _).
  - simpl. pose proof maxSteeringAngle_pos. lra.
  - apply Hright; reflexivity.
Defined.

(** X12. With neither [left] nor [right] held the steering wheel centres
    itself: after [n] frames an angle [a] that was not negative is
    [max(0, a - 0.025 n)] and one that was not positive is
    [min(0, a + 0.025 n)]; from any angle within the lock the steering is
    at exactly 0 after 27 frames and stays there. *)
Theorem steering_centres_itself `{Babylon}
        (frames : nat -> Frame) (v : Vehicle) (n : nat) :
  left (controls v) = false -> right (controls v) = false ->
  (0 <= steeringAngle v ->
   steeringAngle (ticks frames n v)
   = Rmax 0 (steeringAngle v - turnSpeed / 2 * INR n)) /\
  (steeringAngle v <= 0 ->
   steeringAngle (ticks frames n v)
   = Rmin 0 (steeringAngle v + turnSpeed / 2 * INR n)) /\
  (- maxSteeringAngle <= steeringAngle v <= maxSteeringAngle -> (27 <= n)%nat ->
   steeringAngle (ticks frames n v) = 0).
Proof.
  intros Hl Hr.
  assert (E : steeringAngle (ticks frames n v)
              = Nat.iter n centred (steeringAngle v)).
  { apply ticks_steering_iter. intros f w Hw.
    apply update_centres; now rewrite Hw. }
  assert (Hpos : 0 <= steeringAngle v ->
                 steeringAngle (ticks frames n v)
                 = Rmax 0 (steeringAngle v - turnSpeed / 2 * INR n)).
  { intros Hs. rewrite E.
    destruct (iter_ext centred (fun a => Rmax 0 (a - turnSpeed / 2)) (fun a => 0 <= a)
                       (steeringAngle v) n Hs) as [-> _].
    - intros x Hx. apply centred_from_above, Hx.
    - apply iter_clamp_down; [unfold turnSpeed; lra | exact Hs]. }
  assert (Hneg : steeringAngle v <= 0 ->
                 steeringAngle (ticks frames n v)
                 = Rmin 0 (steeringAngle v + turnSpeed / 2 * INR n)).
  { intros Hs. rewrite E.
    destruct (iter_ext centred (fun a => Rmin 0 (a + turnSpeed / 2)) (fun a => a <= 0)
                       (steeringAngle v) n Hs) as [-> _].
    - intros x Hx. apply centred_from_below, Hx.
    - apply iter_clamp_up; [unfold turnSpeed; lra | exact Hs]. }
  split; [exact Hpos|]. split; [exact Hneg|].
  intros Hs Hn. apply le_INR in Hn.
  change 27%nat with (Z.to_nat 27) in Hn. rewrite INR_lit in Hn by lia.
  pose proof PI_4 as Hpi. unfold maxSteeringAngle in Hs.
  destruct (Rle_dec 0 (steeringAngle v)) as [H0|H0].
  - rewrite (Hpos H0). clamp; nra.
  - rewrite Hneg by lra. clamp; nra.
Qed.

(** Letting go of the wheel at the right lock. *)
Lemma steering_centres_itself_witness :
  left (controls (set_steeringAngle maxSteeringAngle (spawn false))) = false /\
  right (controls (set_steeringAngle maxSteeringAngle (spawn false))) = false /\
  steeringAngle (ticks (fun _ => emptyFrame) 27
                       (set_steeringAngle maxSteeringAngle (spawn false))) = 0.
Proof.
  split; [reflexivity|]. split; [reflexivity|].
  destruct (steering_centres_itself
              (fun _ => emptyFrame)
              (set_steeringAngle maxSteeringAngle (spawn false)) 27
              eq_refl eq_refl) as (_ & _ & Hzero).
  apply Hzero; [|lia]. simpl. pose proof maxSteeringAngle_pos. lra.
Defined.

(** ** What the driver sees *)

Lemma Int_part_bounds (r : R) (b : Z) :
  0 <= r <= IZR b -> (0 <= Int_part r <= b)%Z.
Proof.
  intros Hr. destruct (base_Int_part r) as (Hl & Hu). split.
  - assert (Hlt : IZR (-1) < IZR (Int_part r)) by lra.
    apply lt_IZR in Hlt. lia.
  - apply le_IZR. lra.
Qed.

(** X13. From the spawn state on, whatever happens, the speed shown to the
    driver is between 0 and 1600 km/h, and at most 800 km/h while the
    vehicle reverses; the whole number on the speedometer is within the
    same bounds. *)
Theorem speedometer_stays_on_the_dial `{Babylon} (havok : bool) (events : list Event) :
  0 <= getSpeedKmh (run havok events) <= 1600 /\
  (speed (run havok events) < 0 -> getSpeedKmh (run havok events) <= 800) /\
  (0 <= UI.speedometer (run havok events) <= 1600)%Z.
Proof.
  assert (Hr : speed_in_range (run havok events)).
  { unfold run. apply fold_step_invariant.
    - intros v e. apply step_speed_in_range.
    - unfold speed_in_range, maxSpeed. simpl. lra. }
  unfold speed_in_range, maxSpeed in Hr.
  assert (Hk : 0 <= getSpeedKmh (run havok events) <= 1600).
  { unfold getSpeedKmh, Rabs. destruct Rcase_abs; lra. }
  split; [exact Hk|]. split.
  - intros Hneg. unfold getSpeedKmh, Rabs. destruct Rcase_abs; lra.
  - unfold UI.speedometer. apply Int_part_bounds. exact Hk.
Qed.

(** The dial after a first frame of reversing. *)
Lemma speedometer_stays_on_the_dial_witness :
  speed (run false [KeyDown "s"; BeforeRender emptyFrame]) < 0 /\
  getSpeedKmh (run false [KeyDown "s"; BeforeRender emptyFrame]) <= 800.
Proof.
  assert (Hs : speed (run false [KeyDown "s"; BeforeRender emptyFrame]) < 0).
  { change (run false [KeyDown "s"; BeforeRender emptyFrame])
      with (update emptyFrame (handleKeyDown "s" (spawn false))).
    rewrite update_reversing by reflexivity. simpl. clamp. }
  split; [exact Hs|].
  destruct (speedometer_stays_on_the_dial false [KeyDown "s"; BeforeRender emptyFrame])
    as (_ & Hrev & _).
  apply Hrev, Hs.
Defined.

(** X14. The gear indicator follows the sign of the speed: it shows [N]
    exactly when the vehicle stands, [D] exactly when the speed is above 0
    and [R] exactly when it is below 0. *)
Theorem gear_follows_the_speed (v : Vehicle) :
  (UI.gearIndicator v = "N"%string <-> speed v = 0) /\
  (UI.gearIndicator v = "D"%string <-> speed v > 0) /\
  (UI.gearIndicator v = "R"%string <-> speed v < 0).
Proof.
  unfold UI.gearIndicator, getSpeedKmh.
  destruct (Req_dec_T (Rabs (speed v) * 20) 0) as [E|E].
  - assert (Hs : speed v = 0).
    { unfold Rabs in E. destruct Rcase_abs; lra. }
    repeat split; intros; try discriminate; lra.
  - assert (Hs : speed v <> 0).
    { intros Hs. apply E. rewrite Hs, Rabs_R0. lra. }
    destruct (Rgt_dec (speed v) 0); repeat split; intros;
      try discriminate; try reflexivity; lra.
Qed.

(** X15. The minimap shows the map at a scale of 0.11 pixels per unit with
    the origin in the middle, without clamping: a coordinate lands within
    the 110 pixels of half the minimap exactly when it is within the 1000
    units of half the map. *)
Theorem minimap_scales_without_clamping (x z : R) :
  fst (UI.mapCoordinatesToMinimap x z) = 0.11 * x /\
  snd (UI.mapCoordinatesToMinimap x z) = 0.11 * z /\
  (Rabs (fst (UI.mapCoordinatesToMinimap x z)) <= 110 <-> Rabs x <= UI.mapSize / 2) /\
  (Rabs (snd (UI.mapCoordinatesToMinimap x z)) <= 110 <-> Rabs z <= UI.mapSize / 2).
Proof.
  unfold UI.mapCoordinatesToMinimap, UI.mapSize. simpl.
  assert (Ex : x / (2000 / 2) * (220 / 2) = 0.11 * x) by lra.
  assert (Ez : z / (2000 / 2) * (220 / 2) = 0.11 * z) by lra.
  rewrite Ex, Ez. repeat split; try reflexivity;
    unfold Rabs; repeat destruct Rcase_abs; lra.
Qed.

(** ** Following the terrain *)

Section Ground.

Context `{Babylon}.

Lemma adjustToTerrain_without_environment f v :
  window_environment f = None -> adjustToTerrain f v = v.
Proof. intros He. unfold adjustToTerrain. now rewrite He. Qed.


Lemma updateBasicPhysics_without_environment f v :
  window_environment f = None ->
  Vector3.y (Mesh.position (mesh (updateBasicPhysics f v)))
  = Vector3.y (Mesh.position (mesh v)) /\
  Mesh.rotationQuaternion (mesh (updateBasicPhysics f v))
  = Mesh.rotationQuaternion (mesh v).
Proof.
  intros He. unfold updateBasicPhysics.
  destruct (Req_dec_T (speed v) 0) as [E|_]; [auto|].
  rewrite adjustToTerrain_without_environment by exact He. auto.
Qed.

End Ground.


(** X17. In a frame without [window.environment] the terrain follower does
    nothing: whether the vehicle moves or not, its elevation and its
    orientation quaternion are after the frame what they were before. *)
Theorem without_environment_elevation_holds `{Babylon} (f : Frame) (v : Vehicle) :
  window_environment f = None ->
  Vector3.y (getPosition (update f v)) = Vector3.y (getPosition v) /\
  Mesh.rotationQuaternion (mesh (update f v)) = Mesh.rotationQuaternion (mesh v) /\
  (forall w, adjustToTerrain f w = w).
Proof.
  intros He. unfold getPosition.
  assert (Hm : mesh (beforePhysics f v) = mesh v) by apply beforePhysics_motion.
  rewrite update_unfold. split; [|split].
  - destruct (chassisBody v); [now rewrite Hm|].
    destruct (updateBasicPhysics_without_environment f (beforePhysics f v) He)
      as (-> & _). now rewrite Hm.
  - destruct (chassisBody v); [now rewrite Hm|].
    destruct (updateBasicPhysics_without_environment f (beforePhysics f v) He)
      as (_ & ->). now rewrite Hm.
  - intros w. now apply adjustToTerrain_without_environment.
Qed.



(** A first frame with [w] held before the environment is there. *)
Lemma without_environment_elevation_holds_witness :
  window_environment bareFrame = None /\
  Vector3.y (getPosition (update bareFrame (handleKeyDown "w" (spawn false))))
  = Vector3.y (getPosition (handleKeyDown "w" (spawn false))).
Proof.
  split; [reflexivity|].
  destruct (without_environment_elevation_holds
              bareFrame (handleKeyDown "w" (spawn false)) eq_refl) as (Hy & _).
  exact Hy.
Defined.

(** ** Turning *)

Lemma turned_by v :
  - maxSteeringAngle <= steeringAngle v <= maxSteeringAngle ->
  0 < sin (Rabs (steeringAngle v) + 0.0001) <= Rabs (steeringAngle v) + 0.0001 /\
  turned v - rotation v
  = speed v * sin (Rabs (steeringAngle v) + 0.0001) / 4
    * Math.sign (steeringAngle v).
Proof.
  intros Ha. unfold maxSteeringAngle in Ha. pose proof PI_4 as Hpi.
  assert (Hx : 0 < Rabs (steeringAngle v) + 0.0001 < 1).
  { unfold Rabs. destruct Rcase_abs; lra. }
  assert (Hsin : 0 < sin (Rabs (steeringAngle v) + 0.0001))
    by (apply sin_small_pos; lra).
  split.
  - split; [exact Hsin|]. left. apply sin_lt_x. lra.
  - unfold turned. rewrite quotient_by_turn_radius by exact Hsin. lra.
Qed.

(** X18. The integrator turns a moving vehicle the way the wheel is turned:
    with the steering angle within the lock, the heading stays when the
    steering is centred, grows when speed and steering angle have the same
    sign and falls when they have opposite signs, so reversing turns the
    other way; and in one frame the heading changes by at most
    [|speed| * (|steeringAngle| + 0.0001) / wheelBase]. *)
Theorem heading_turns_with_the_wheel `{Babylon} (f : Frame) (v : Vehicle) :
  speed v <> 0 ->
  - maxSteeringAngle <= steeringAngle v <= maxSteeringAngle ->
  (steeringAngle v = 0 ->
   rotation (updateBasicPhysics f v) = rotation v) /\
  (0 < speed v * steeringAngle v ->
   rotation v < rotation (updateBasicPhysics f v)) /\
  (speed v * steeringAngle v < 0 ->
   rotation (updateBasicPhysics f v) < rotation v) /\
  Rabs (rotation (updateBasicPhysics f v) - rotation v)
  <= Rabs (speed v) * (Rabs (steeringAngle v) + 0.0001) / wheelBase.
Proof.
  intros Hs Ha.
  destruct (updateBasicPhysics_moves f v Hs) as (-> & _).
  destruct (turned_by v Ha) as ((Hsin & Hle) & Ht).
  set (S := sin (Rabs (steeringAngle v) + 0.0001)) in *.
  assert (Habs : 0 <= Rabs (steeringAngle v)) by apply Rabs_pos.
  split; [|split; [|split]].
  - intros H0. rewrite H0, Math_sign_0 in Ht. lra.
  - intros Hp. destruct (Rlt_dec 0 (steeringAngle v)) as [Hpos|Hneg].
    + rewrite Math_sign_pos in Ht by exact Hpos. nra.
    + assert (Hn : steeringAngle v < 0) by nra.
      rewrite Math_sign_neg in Ht by exact Hn. nra.
  - intros Hp. destruct (Rlt_dec 0 (steeringAngle v)) as [Hpos|Hneg].
    + rewrite Math_sign_pos in Ht by exact Hpos. nra.
    + assert (Hn : steeringAngle v < 0) by nra.
      rewrite Math_sign_neg in Ht by exact Hn. nra.
  - rewrite Ht. unfold wheelBase.
    assert (Hsg : Rabs (Math.sign (steeringAngle v)) <= 1).
    { unfold Math.sign. repeat destruct Rlt_dec; unfold Rabs;
        destruct Rcase_abs; lra. }
    replace (speed v * S / 4 * Math.sign (steeringAngle v))
      with (speed v * (S * Math.sign (steeringAngle v)) / 4) by lra.
    unfold Rdiv. rewrite !Rabs_mult.
    rewrite (Rabs_pos_eq (/ 4)) by lra. rewrite (Rabs_pos_eq S) by lra.
    pose proof (Rabs_pos (speed v)) as Hv.
    pose proof (Rabs_pos (Math.sign (steeringAngle v))) as Hg.
    assert (S * Rabs (Math.sign (steeringAngle v))
            <= Rabs (steeringAngle v) + 0.0001) by nra.
    nra.
Qed.

(** Reversing with the wheel turned to the right turns the heading to the
    left. *)
Lemma heading_turns_with_the_wheel_witness :
  speed (set_speed (-10) (set_steeringAngle 0.1 (spawn false))) <> 0 /\
  rotation (updateBasicPhysics emptyFrame
              (set_speed (-10) (set_steeringAngle 0.1 (spawn false)))) < 0.
Proof.
  assert (Hs : speed (set_speed (-10) (set_steeringAngle 0.1 (spawn false))) <> 0)
    by (simpl; lra).
  split; [exact Hs|].
  destruct (heading_turns_with_the_wheel
              emptyFrame (set_speed (-10) (set_steeringAngle 0.1 (spawn false))) Hs)
    as (_ & _ & Hleft & _).
  - simpl. unfold maxSteeringAngle. pose proof PI_gt_3. lra.
  - apply Hleft. simpl. lra.
Defined.

(** ** After a reset *)

Section After_reset.

Context `{Babylon}.

Lemma update_of_a_standing_vehicle f v :
  idle (controls v) = true -> speed v = 0 -> steeringAngle v = 0 ->
  speed (update f v) = 0 /\ steeringAngle (update f v) = 0 /\
  mesh (update f v) = mesh v /\ rotation (update f v) = rotation v.
Proof.
  intros Hi Hs Ha.
  assert (Hs' : speed (update f v) = 0).
  { rewrite coast_speed by (try exact Hi; lra). rewrite Hs. clamp. }
  destruct (idle_fields _ Hi) as (_ & _ & Hl & Hr & _).
  split; [exact Hs'|]. split.
  - rewrite update_steeringAngle, (updateSteering_centres v Hl Hr), Ha.
    unfold centred. repeat destruct Rgt_dec; repeat destruct Rlt_dec; lra.
  - apply update_at_rest, Hs'.
Qed.

Lemma ticks_of_a_standing_vehicle frames n v :
  idle (controls v) = true -> speed v = 0 -> steeringAngle v = 0 ->
  speed (ticks frames n v) = 0 /\ steeringAngle (ticks frames n v) = 0 /\
  mesh (ticks frames n v) = mesh v /\ rotation (ticks frames n v) = rotation v.
Proof.
  intros Hi Hs Ha. induction n as [|n (IHs & IHa & IHm & IHr)]; [auto|].
  cbn [ticks].
  destruct (update_of_a_standing_vehicle (frames n) (ticks frames n v))
    as (Es & Ea & Em & Er); try assumption.
  - now rewrite ticks_controls.
  - rewrite Es, Ea, Em, Er. auto.
Qed.

End After_reset.

(** X19. After [reset] the vehicle waits: for as many frames as pass
    without a key, whatever the scene, it stands at the origin with speed
    0, centred steering and a zero mesh rotation, and it keeps the heading
    that it had before the reset. *)
Theorem reset_vehicle_waits_at_the_origin `{Babylon}
        (frames : nat -> Frame) (n : nat) (v : Vehicle) :
  getPosition (ticks frames n (reset v)) = Vector3.Zero /\
  Mesh.rotation (mesh (ticks frames n (reset v))) = Vector3.Zero /\
  speed (ticks frames n (reset v)) = 0 /\
  steeringAngle (ticks frames n (reset v)) = 0 /\
  rotation (ticks frames n (reset v)) = rotation v.
Proof.
  destruct (ticks_of_a_standing_vehicle frames n (reset v))
    as (Es & Ea & Em & Er); try reflexivity.
  unfold getPosition. rewrite Es, Ea, Em, Er. repeat split; reflexivity.
Qed.

(** ** Trees and roads *)

Lemma isAwayFromRoads_iff (roadMeshes : list Vector3.t) (x y z d : R) :
  Countryside.isAwayFromRoads roadMeshes x z d = true <->
  forall roadPos, In roadPos roadMeshes ->
    d <= Countryside.groundDistance (Vector3.mk x y z) roadPos.
Proof.
  unfold Countryside.groundDistance.
  induction roadMeshes as [|r rs IH]; simpl.
  - split; [intros _ q [] | reflexivity].
  - destruct Rlt_dec as [Hlt|Hge].
    + split; [discriminate|]. intros Hall.
      specialize (Hall r (or_introl eq_refl)). lra.
    + rewrite IH. split.
      * intros Hall q [<-|Hq]; [lra | now apply Hall].
      * intros Hall q Hq. apply Hall. now right.
Qed.

(** X20. [isAwayFromRoads] answers true exactly when every road mesh is at
    a ground distance of at least [minDistance] from the place; with no
    road it answers true, and what is away from the roads by a distance is
    away from them by every smaller one. *)
Theorem isAwayFromRoads_means_all_roads_far
        (roadMeshes : list Vector3.t) (x z minDistance : R) :
  (Countryside.isAwayFromRoads roadMeshes x z minDistance = true <->
   forall roadPos, In roadPos roadMeshes ->
     minDistance <= Countryside.groundDistance (Vector3.mk x 0 z) roadPos) /\
  Countryside.isAwayFromRoads [] x z minDistance = true /\
  (forall smaller, smaller <= minDistance ->
     Countryside.isAwayFromRoads roadMeshes x z minDistance = true ->
     Countryside.isAwayFromRoads roadMeshes x z smaller = true).
Proof.
  split; [apply isAwayFromRoads_iff|]. split; [reflexivity|].
  intros smaller Hs Ht. apply (isAwayFromRoads_iff roadMeshes x 0 z smaller).
  intros q Hq.
  pose proof (proj1 (isAwayFromRoads_iff roadMeshes x 0 z minDistance) Ht q Hq).
  lra.
Qed.

Lemma plantTrees_invariant (P : Vector3.t -> Prop) random roadMeshes n :
  (forall k x z,
      x = Vector3.x Countryside.countrysideCenter
          + cos (random k * PI * 2) * (random (S k) * 1000 / 2) ->
      z = Vector3.z Countryside.countrysideCenter
          + sin (random k * PI * 2) * (random (S k) * 1000 / 2) ->
      Countryside.isAwayFromRoads roadMeshes x z 30 = true ->
      P (Vector3.mk x 2.5 z) /\ P (Vector3.mk x 7 z)) ->
  forall k treeMeshes,
    Forall P treeMeshes ->
    Forall P (Countryside.plantTrees random roadMeshes n k treeMeshes).
Proof.
  intros HP. induction n as [|n IH]; intros k treeMeshes Ht; simpl; [exact Ht|].
  apply IH. destruct Countryside.isAwayFromRoads eqn:E; [|exact Ht].
  unfold Countryside.createTree. apply Forall_app. split; [exact Ht|].
  destruct (HP k _ _ eq_refl eq_refl E) as (Htrunk & Hleaves).
  repeat constructor; assumption.
Qed.

Lemma plantTrees_length random roadMeshes n k treeMeshes :
  (List.length (Countryside.plantTrees random roadMeshes n k treeMeshes)
   <= List.length treeMeshes + 2 * n)%nat.
Proof.
  revert k treeMeshes. induction n as [|n IH]; intros k treeMeshes; simpl; [lia|].
  match goal with
  | |- context [Countryside.plantTrees _ _ n _ ?t] => specialize (IH (S (S k)) t)
  end.
  destruct Countryside.isAwayFromRoads; [|lia].
  unfold Countryside.createTree in *. rewrite length_app in IH. simpl in IH. lia.
Qed.

Lemma polar_ground_distance (a d y : R) :
  0 <= d ->
  Countryside.groundDistance
    (Vector3.mk (Vector3.x Countryside.countrysideCenter + cos a * d) y
                (Vector3.z Countryside.countrysideCenter + sin a * d))
    Countryside.countrysideCenter = d.
Proof.
  intros Hd. unfold Countryside.groundDistance, Countryside.countrysideCenter.
  cbn [Vector3.x Vector3.z].
  pose proof (sin2_cos2 a) as Hsc. unfold Rsqr in Hsc.
  match goal with
  | |- sqrt ?e = d => replace e with (d ^ 2); [apply sqrt_pow2, Hd|]
  end.
  transitivity ((sin a * sin a + cos a * cos a) * d ^ 2); [rewrite Hsc|]; ring.
Qed.

(** X21. Whatever [Math.random] returns between 0 and 1, the tree loop of
    [createCountrysideArea] adds at most 300 trees of two meshes each to an
    empty list, and every mesh it adds, trunk or leaves, is less than 500
    from the countryside centre over the ground and at least 30 from every
    road mesh. *)
Theorem trees_keep_off_the_roads
        (random : nat -> R) (roadMeshes : list Vector3.t) (k : nat) :
  (forall i, 0 <= random i < 1) ->
  (List.length (Countryside.createCountrysideTrees random roadMeshes k []) <= 600)%nat /\
  (forall tree,
      In tree (Countryside.createCountrysideTrees random roadMeshes k []) ->
      Countryside.groundDistance tree Countryside.countrysideCenter < 500 /\
      (forall roadPos, In roadPos roadMeshes ->
         30 <= Countryside.groundDistance tree roadPos)).
Proof.
  intros Hrandom. unfold Countryside.createCountrysideTrees. split.
  - pose proof (plantTrees_length random roadMeshes 300 k []) as Hl.
    change (List.length (@nil Vector3.t)) with 0%nat in Hl. lia.
  - apply List.Forall_forall. apply plantTrees_invariant; [|constructor].
    intros j x z -> -> Haway.
    assert (Hd : 0 <= random (S j) * 1000 / 2 < 500)
      by (specialize (Hrandom (S j)); lra).
    split; (split; [rewrite polar_ground_distance; lra|]);
      intros q Hq;
      exact (proj1 (isAwayFromRoads_iff roadMeshes _ _ _ 30) Haway q Hq).
Qed.

(** A single road and a stream that always answers one half. *)
Lemma trees_keep_off_the_roads_witness :
  (forall i, 0 <= steadyRandom i < 1) /\
  (List.length (Countryside.createCountrysideTrees steadyRandom oneRoad 0 [])
   <= 600)%nat.
Proof.
  assert (Hr : forall i, 0 <= steadyRandom i < 1)
    by (intros i; unfold steadyRandom; lra).
  split; [exact Hr|].
  destruct (trees_keep_off_the_roads steadyRandom oneRoad 0 Hr) as (Hl & _).
  exact Hl.
Defined.

(** ** Day and night *)

Section Day_and_night.

Context `{Babylon}.

Variable Vector3_scale : Vector3.t -> R -> Vector3.t.

Lemma beforeRender_controller s :
  DayNight.paused (DayNight.controller s) = false ->
  0 <= DayNight.time (DayNight.controller s) <= 1 ->
  0 <= DayNight.cycleSpeed (DayNight.controller s) <= 1 ->
  0 <= DayNight.time (DayNight.controller (DayNight.beforeRender Vector3_scale s)) <= 1 /\
  (0 < DayNight.cycleSpeed (DayNight.controller s) ->
   0 < DayNight.time (DayNight.controller (DayNight.beforeRender Vector3_scale s))).
Proof.
  intros Hp Ht Hc. unfold DayNight.beforeRender. rewrite Hp. simpl.
  destruct Rgt_dec; lra.
Qed.

Lemma beforeRender_rest s :
  DayNight.cycleSpeed (DayNight.controller (DayNight.beforeRender Vector3_scale s))
  = DayNight.cycleSpeed (DayNight.controller s) /\
  DayNight.paused (DayNight.controller (DayNight.beforeRender Vector3_scale s))
  = DayNight.paused (DayNight.controller s) /\
  List.length (DayNight.lights (DayNight.beforeRender Vector3_scale s))
  = List.length (DayNight.lights s).
Proof.
  unfold DayNight.beforeRender. destruct (DayNight.paused _) eqn:Hp; simpl;
    repeat split; try reflexivity; try exact Hp. apply length_imap.
Qed.

Lemma beforeRender_paused s :
  DayNight.paused (DayNight.controller s) = true ->
  DayNight.beforeRender Vector3_scale s = s.
Proof. intros Hp. unfold DayNight.beforeRender. now rewrite Hp. Qed.

Lemma beforeRender_light s i light :
  DayNight.paused (DayNight.controller s) = false ->
  DayNight.lights (DayNight.beforeRender Vector3_scale s) !! i = Some light ->
  exists old sunDirection,
    light = DayNight.adjustLight Vector3_scale
              (DayNight.sunHeightAt
                 (DayNight.time (DayNight.controller
                                   (DayNight.beforeRender Vector3_scale s))))
              sunDirection i old.
Proof.
  intros Hp. unfold DayNight.beforeRender. rewrite Hp. simpl.
  rewrite list_lookup_imap.
  destruct (DayNight.lights s !! i) as [old|]; [|discriminate].
  simpl. intros E. injection E as <-. eexists _, _. reflexivity.
Qed.

Lemma beforeRender_sky s sky :
  DayNight.paused (DayNight.controller s) = false ->
  DayNight.clearColor (DayNight.beforeRender Vector3_scale s) = Some sky ->
  sky = DayNight.skyColor
          (DayNight.sunHeightAt
             (DayNight.time (DayNight.controller
                               (DayNight.beforeRender Vector3_scale s)))).
Proof.
  intros Hp. unfold DayNight.beforeRender. rewrite Hp. simpl.
  destruct (DayNight.clearColor s); [|discriminate].
  intros E. now injection E as <-.
Qed.

End Day_and_night.

Lemma sunColor_components h :
  -1 <= h <= 1 ->
  component (DayNight.r (DayNight.sunColor h)) /\
  component (DayNight.g (DayNight.sunColor h)) /\
  component (DayNight.b (DayNight.sunColor h)).
Proof.
  intros Hh. unfold DayNight.sunColor, component.
  repeat destruct Rgt_dec; simpl; repeat split; lra.
Qed.

Lemma skyColor_components h :
  -1 <= h <= 1 ->
  component (DayNight.r4 (DayNight.skyColor h)) /\
  component (DayNight.g4 (DayNight.skyColor h)) /\
  component (DayNight.b4 (DayNight.skyColor h)) /\
  DayNight.a4 (DayNight.skyColor h) = 1.
Proof.
  intros Hh. unfold DayNight.skyColor, component.
  repeat destruct Rgt_dec; simpl; repeat split; lra.
Qed.

(** X22. The clock of the day and night cycle stays within one day: with a
    cycle speed between 0 and 1, a time between 0 and 1 is again between 0
    and 1 after any number of frames; the frames change neither the cycle
    speed, nor the pause, nor the number of lights, and while the
    controller is paused they change nothing at all. *)
Theorem cycle_time_stays_within_a_day `{Babylon}
        (Vector3_scale : Vector3.t -> R -> Vector3.t)
        (s : DayNight.State) (n : nat) :
  0 <= DayNight.time (DayNight.controller s) <= 1 ->
  0 <= DayNight.cycleSpeed (DayNight.controller s) <= 1 ->
  0 <= DayNight.time (DayNight.controller
                        (Nat.iter n (DayNight.beforeRender Vector3_scale) s)) <= 1 /\
  DayNight.cycleSpeed (DayNight.controller
                         (Nat.iter n (DayNight.beforeRender Vector3_scale) s))
  = DayNight.cycleSpeed (DayNight.controller s) /\
  DayNight.paused (DayNight.controller
                     (Nat.iter n (DayNight.beforeRender Vector3_scale) s))
  = DayNight.paused (DayNight.controller s) /\
  List.length (DayNight.lights (Nat.iter n (DayNight.beforeRender Vector3_scale) s))
  = List.length (DayNight.lights s) /\
  (DayNight.paused (DayNight.controller s) = true ->
   Nat.iter n (DayNight.beforeRender Vector3_scale) s = s).
Proof.
  intros Ht Hc. induction n as [|n (IHt & IHc & IHp & IHl & IHs)].
  - simpl. auto.
  - rewrite Nat.iter_succ.
    destruct (beforeRender_rest Vector3_scale
                (Nat.iter n (DayNight.beforeRender Vector3_scale) s))
      as (-> & -> & ->).
    rewrite IHc, IHp, IHl. repeat split; try reflexivity.
    + destruct (DayNight.paused (DayNight.controller s)) eqn:Hp.
      * rewrite IHs by reflexivity.
        rewrite beforeRender_paused by exact Hp. lra.
      * apply beforeRender_controller; [congruence | exact IHt | rewrite IHc; exact Hc].
    + destruct (DayNight.paused (DayNight.controller s)) eqn:Hp.
      * rewrite IHs by reflexivity.
        rewrite beforeRender_paused by exact Hp. lra.
      * apply beforeRender_controller; [congruence | exact IHt | rewrite IHc; exact Hc].
    + intros Hp. rewrite IHs by exact Hp. now apply beforeRender_paused.
Qed.

(** A thousand frames of the cycle from midnight. *)
Lemma cycle_time_stays_within_a_day_witness :
  0 <= DayNight.time (DayNight.controller threeLights) <= 1 /\
  0 <= DayNight.cycleSpeed (DayNight.controller threeLights) <= 1 /\
  0 <= DayNight.time
         (DayNight.controller
            (Nat.iter 1000 (DayNight.beforeRender scaleByComponents) threeLights))
    <= 1.
Proof.
  assert (Ht : 0 <= DayNight.time (DayNight.controller threeLights) <= 1)
    by (simpl; lra).
  assert (Hc : 0 <= DayNight.cycleSpeed (DayNight.controller threeLights) <= 1)
    by (simpl; lra).
  split; [exact Ht|]. split; [exact Hc|].
  destruct (cycle_time_stays_within_a_day scaleByComponents threeLights 1000 Ht Hc)
    as (Hday & _).
  exact Hday.
Defined.

(** X23. After a frame of the running cycle every light is within its
    range: the sun light between 0.1 and 1 with one colour for diffuse and
    specular, the hemispheric light between 0.2 and 0.5, every street light
    between 0.1 and 1.8; the components of the sun colour and of the sky
    colour are between 0 and 1, and the sky is opaque. *)
Theorem lights_stay_within_range `{Babylon}
        (Vector3_scale : Vector3.t -> R -> Vector3.t)
        (s : DayNight.State) (i : nat) (light : DayNight.Light) :
  DayNight.paused (DayNight.controller s) = false ->
  DayNight.lights (DayNight.beforeRender Vector3_scale s) !! i = Some light ->
  (i = 0%nat ->
   0.1 <= DayNight.intensity light <= 1 /\
   DayNight.diffuse light = DayNight.specular light /\
   component (DayNight.r (DayNight.diffuse light)) /\
   component (DayNight.g (DayNight.diffuse light)) /\
   component (DayNight.b (DayNight.diffuse light))) /\
  (i = 1%nat -> 0.2 <= DayNight.intensity light <= 0.5) /\
  ((2 <= i)%nat -> 0.1 <= DayNight.intensity light <= 1.8) /\
  (forall sky,
      DayNight.clearColor (DayNight.beforeRender Vector3_scale s) = Some sky ->
      component (DayNight.r4 sky) /\ component (DayNight.g4 sky) /\
      component (DayNight.b4 sky) /\ DayNight.a4 sky = 1).
Proof.
  intros Hp Hl.
  destruct (beforeRender_light Vector3_scale s i light Hp Hl) as (old & d & ->).
  set (h := DayNight.sunHeightAt _).
  assert (Hh : -1 <= h <= 1) by (unfold h, DayNight.sunHeightAt; apply SIN_bound).
  split; [|split; [|split]].
  - intros ->. simpl. split; [clamp|]. split; [reflexivity|].
    apply sunColor_components, Hh.
  - intros ->. simpl. clamp.
  - intros Hi. destruct i as [|[|i]]; [lia | lia |]. simpl. clamp.
  - intros sky Hsky. rewrite (beforeRender_sky Vector3_scale s sky Hp Hsky).
    apply skyColor_components. apply SIN_bound.
Qed.

(** The street light of the three lights after one frame. *)
Lemma lights_stay_within_range_witness :
  DayNight.paused (DayNight.controller threeLights) = false /\
  exists light,
    DayNight.lights (DayNight.beforeRender scaleByComponents threeLights) !! 2%nat
    = Some light /\
    0.1 <= DayNight.intensity light <= 1.8.
Proof.
  split; [reflexivity|]. eexists. split; [reflexivity|].
  destruct (lights_stay_within_range scaleByComponents threeLights 2 _
                                     eq_refl eq_refl) as (_ & _ & Hstreet & _).
  apply Hstreet. lia.
Defined.

Lemma sunHeight_by_half_day t :
  (0 < t < 0.5 -> 0 < DayNight.sunHeightAt t) /\
  (0.5 < t < 1 -> DayNight.sunHeightAt t < 0).
Proof.
  unfold DayNight.sunHeightAt. pose proof PI_RGT_0 as Hpi. split; intros Ht.
  - apply sin_gt_0; nra.
  - apply sin_lt_0; nra.
Qed.

(** X24. The cycle lights the street at night: after a frame of the running
    cycle that ends in the second half of the day (time between 0.5 and 1)
    the sun light is at its floor of 0.1 in the colour of moonlight, the
    hemispheric light is at 0.2 and every street light is above 0.8; after
    one that ends in the first half (time between 0 and 0.5) the sun light
    is red or warm, the hemispheric light is above 0.2 and every street
    light is below 0.8. The sun is highest at time 0.25 and lowest at
    0.75. *)
Theorem street_lights_follow_the_night `{Babylon}
        (Vector3_scale : Vector3.t -> R -> Vector3.t)
        (s : DayNight.State) (i : nat) (light : DayNight.Light) :
  DayNight.paused (DayNight.controller s) = false ->
  DayNight.lights (DayNight.beforeRender Vector3_scale s) !! i = Some light ->
  (0.5 < DayNight.time (DayNight.controller (DayNight.beforeRender Vector3_scale s)) < 1 ->
   (i = 0%nat -> DayNight.intensity light = 0.1 /\
                 DayNight.diffuse light = DayNight.mkColor3 0.2 0.2 0.5) /\
   (i = 1%nat -> DayNight.intensity light = 0.2) /\
   ((2 <= i)%nat -> 0.8 < DayNight.intensity light)) /\
  (0 < DayNight.time (DayNight.controller (DayNight.beforeRender Vector3_scale s)) < 0.5 ->
   (i = 0%nat -> 0.1 <= DayNight.intensity light /\
                 DayNight.r (DayNight.diffuse light) = 1) /\
   (i = 1%nat -> 0.2 < DayNight.intensity light) /\
   ((2 <= i)%nat -> DayNight.intensity light < 0.8)) /\
  DayNight.sunHeightAt 0.25 = 1 /\ DayNight.sunHeightAt 0.75 = -1.
Proof.
  intros Hp Hl.
  assert (Hnoon : DayNight.sunHeightAt 0.25 = 1 /\ DayNight.sunHeightAt 0.75 = -1).
  { unfold DayNight.sunHeightAt. split.
    - replace (0.25 * PI * 2) with (PI / 2) by lra. apply sin_PI2.
    - replace (0.75 * PI * 2) with (3 * (PI / 2)) by lra. apply sin_3PI2. }
  cut ((0.5 < DayNight.time (DayNight.controller (DayNight.beforeRender Vector3_scale s)) < 1 ->
   (i = 0%nat -> DayNight.intensity light = 0.1 /\
                 DayNight.diffuse light = DayNight.mkColor3 0.2 0.2 0.5) /\
   (i = 1%nat -> DayNight.intensity light = 0.2) /\
   ((2 <= i)%nat -> 0.8 < DayNight.intensity light)) /\
  (0 < DayNight.time (DayNight.controller (DayNight.beforeRender Vector3_scale s)) < 0.5 ->
   (i = 0%nat -> 0.1 <= DayNight.intensity light /\
                 DayNight.r (DayNight.diffuse light) = 1) /\
   (i = 1%nat -> 0.2 < DayNight.intensity light) /\
   ((2 <= i)%nat -> DayNight.intensity light < 0.8))); [tauto|].
  clear Hnoon.
  destruct (beforeRender_light Vector3_scale s i light Hp Hl) as (old & d & ->).
  destruct (sunHeight_by_half_day
              (DayNight.time (DayNight.controller
                                (DayNight.beforeRender Vector3_scale s))))
    as (Hday & Hnight).
  set (h := DayNight.sunHeightAt _) in *.
  split; intros Ht.
  - specialize (Hnight Ht). split; [|split].
    + intros ->. simpl. split; [clamp|].
      unfold DayNight.sunColor. repeat destruct Rgt_dec; try lra. reflexivity.
    + intros ->. simpl. clamp.
    + intros Hi. destruct i as [|[|i]]; [lia | lia |]. simpl. clamp.
  - specialize (Hday Ht). split; [|split].
    + intros ->. simpl. split; [clamp|].
      unfold DayNight.sunColor. repeat destruct Rgt_dec; try lra; reflexivity.
    + intros ->. simpl. clamp.
    + intros Hi. destruct i as [|[|i]]; [lia | lia |]. simpl. clamp.
Qed.

(** The street light of the three lights after one frame past midnight. *)
Lemma street_lights_follow_the_night_witness :
  DayNight.paused (DayNight.controller threeLights) = false /\
  exists light,
    DayNight.lights (DayNight.beforeRender scaleByComponents threeLights) !! 2%nat
    = Some light /\
    DayNight.intensity light < 0.8.
Proof.
  split; [reflexivity|]. eexists. split; [reflexivity|].
  destruct (street_lights_follow_the_night scaleByComponents threeLights 2 _
                                           eq_refl eq_refl) as (_ & Hday & _).
  destruct Hday as (_ & _ & Hstreet).
  - destruct (beforeRender_controller scaleByComponents threeLights eq_refl)
      as (Ht & Hpos); [simpl; lra | simpl; lra |].
    split; [apply Hpos; simpl; lra|].
    unfold DayNight.beforeRender. simpl. destruct Rgt_dec; lra.
  - apply Hstreet. lia.
Defined.

(** ** The city blocks *)

Lemma rem_of_block_centre c :
  In c City.blockCentres -> City.rem (Rabs c) 100 = 50.
Proof.
  intros Hc. unfold City.rem, City.trunc.
  assert (Hq : exists n : Z, Rabs c = IZR n * 100 + 50 /\ (0 <= n)%Z).
  { simpl in Hc.
    destruct Hc as [<-|[<-|[<-|[<-|[<-|[<-|[<-|[<-|[]]]]]]]]];
      [exists 3%Z | exists 2%Z | exists 1%Z | exists 0%Z
       | exists 0%Z | exists 1%Z | exists 2%Z | exists 3%Z];
      (split; [unfold Rabs; destruct Rcase_abs; lra | lia]). }
  destruct Hq as (n & -> & Hn).
  assert (H0 : 0 <= IZR n) by (apply IZR_le in Hn; exact Hn).
  destruct Rle_dec as [_|Hneg]; [|lra].
  rewrite <- (Int_part_spec ((IZR n * 100 + 50) / 100) n) by lra. lra.
Qed.

Lemma forLoop_over_block_centres {S : Type} (body : R -> S -> S) (s : S) :
  City.forLoop 9 (- 800 / 2 + 100 / 2) (800 / 2) 100 body s
  = fold_left (fun s x => body x s) City.blockCentres s.
Proof.
  unfold City.blockCentres. cbn [City.forLoop fold_left].
  replace (- 800 / 2 + 100 / 2) with (-350) by lra.
  replace (-350 + 100) with (-250) by lra.
  replace (-250 + 100) with (-150) by lra.
  replace (-150 + 100) with (-50) by lra.
  replace (-50 + 100) with 50 by lra.
  replace (50 + 100) with 150 by lra.
  replace (150 + 100) with 250 by lra.
  replace (250 + 100) with 350 by lra.
  repeat (destruct Rlt_dec; [|lra]).
  destruct Rlt_dec; [lra | reflexivity].
Qed.

Lemma createBuildings_grows (P : City.Building -> Prop) random b x z :
  (forall k,
      P (City.mkBuilding
           (Vector3.mk (Vector3.x City.cityCenter + x + (random k - 0.5) * (100 - 10 * 2))
                       ((10 + random (k + 2)%nat * 60) / 2)
                       (Vector3.z City.cityCenter + z
                        + (random (k + 1)%nat - 0.5) * (100 - 10 * 2)))
           (10 + random (k + 3)%nat * 20)
           (10 + random (k + 2)%nat * 60)
           (10 + random (k + 4)%nat * 20))) ->
  forall site,
    Forall P (fst site) ->
    Forall P (fst (City.createBuildings random b x z site)) /\
    List.length (fst (City.createBuildings random b x z site))
    = (List.length (fst site) + b)%nat.
Proof.
  intros HP. induction b as [|b IH]; intros [meshes k] Hs.
  - simpl. split; [exact Hs | lia].
  - cbn [City.createBuildings]. cbv zeta.
    destruct (IH (City.createBuilding
                    (Vector3.x City.cityCenter + x + (random k - 0.5) * (100 - 10 * 2))
                    (Vector3.z City.cityCenter + z
                     + (random (k + 1)%nat - 0.5) * (100 - 10 * 2))
                    (10 + random (k + 3)%nat * 20)
                    (10 + random (k + 2)%nat * 60)
                    (10 + random (k + 4)%nat * 20) (meshes, (k + 5)%nat)))
      as (HF & HL).
    + simpl. apply Forall_app. split; [exact Hs|]. constructor; [apply HP | constructor].
    + split; [exact HF|]. rewrite HL. simpl. rewrite length_app. simpl. lia.
Qed.

Lemma createBlock_builds random x z site :
  (forall i, 0 <= random i < 1) ->
  In x City.blockCentres -> In z City.blockCentres ->
  Forall City.well_built (fst site) ->
  Forall City.well_built (fst (City.createBlock random x z site)) /\
  (List.length (fst site) + 1
   <= List.length (fst (City.createBlock random x z site))
   <= List.length (fst site) + 4)%nat.
Proof.
  intros Hr Hx Hz Hs. unfold City.createBlock.
  rewrite (rem_of_block_centre x Hx), (rem_of_block_centre z Hz).
  destruct Rlt_dec as [Hlt|_]; [lra|]. destruct site as [meshes k].
  set (count := Z.to_nat (1 + Int_part (random k * 4))).
  assert (Hn : (1 <= count <= 4)%nat).
  { pose proof (Hr k) as Hk.
    assert (Hb : (0 <= Int_part (random k * 4) <= 3)%Z).
    { destruct (base_Int_part (random k * 4)) as (Hl & Hu). split.
      - assert (Hlt : IZR (-1) < IZR (Int_part (random k * 4))) by lra.
        apply lt_IZR in Hlt. lia.
      - assert (Hlt : IZR (Int_part (random k * 4)) < IZR 4) by lra.
        apply lt_IZR in Hlt. lia. }
    unfold count. lia. }
  destruct (createBuildings_grows City.well_built random count x z) with
    (site := (meshes, Datatypes.S k)) as (HF & HL).
  - intros j. unfold City.well_built. simpl.
    pose proof (Hr j) as H0. pose proof (Hr (j + 1)%nat) as H1.
    pose proof (Hr (j + 2)%nat) as H2. pose proof (Hr (j + 3)%nat) as H3.
    pose proof (Hr (j + 4)%nat) as H4.
    split; [|repeat split; lra].
    exists x, z. split; [exact Hx|]. split; [exact Hz|].
    split; apply Rabs_le; lra.
  - exact Hs.
  - split; [exact HF|]. rewrite HL. simpl. lia.
Qed.

Lemma fold_left_ext {A B : Type} (f g : A -> B -> A) (l : list B) (a : A) :
  (forall a b, f a b = g a b) -> fold_left f l a = fold_left g l a.
Proof.
  intros E. revert a. induction l as [|b l IH]; intros a; simpl; [reflexivity|].
  now rewrite E, IH.
Qed.

Lemma createRow_builds random x zs site :
  (forall i, 0 <= random i < 1) ->
  In x City.blockCentres -> (forall z, In z zs -> In z City.blockCentres) ->
  Forall City.well_built (fst site) ->
  Forall City.well_built
         (fst (fold_left (fun s z => City.createBlock random x z s) zs site)) /\
  (List.length (fst site) + List.length zs
   <= List.length (fst (fold_left (fun s z => City.createBlock random x z s) zs site))
   <= List.length (fst site) + 4 * List.length zs)%nat.
Proof.
  intros Hr Hx. revert site. induction zs as [|z zs IH]; intros site Hzs Hs; simpl.
  - split; [exact Hs | lia].
  - destruct (createBlock_builds random x z site Hr Hx (Hzs z (or_introl eq_refl)) Hs)
      as (HF & HL).
    destruct (IH (City.createBlock random x z site)) as (HF' & HL').
    + intros z' Hz'. apply Hzs. now right.
    + exact HF.
    + split; [exact HF' | lia].
Qed.

Lemma createGrid_builds random xs site :
  (forall i, 0 <= random i < 1) ->
  (forall x, In x xs -> In x City.blockCentres) ->
  Forall City.well_built (fst site) ->
  Forall City.well_built
         (fst (fold_left
                 (fun s x => fold_left (fun s z => City.createBlock random x z s)
                                       City.blockCentres s) xs site)) /\
  (List.length (fst site) + 8 * List.length xs
   <= List.length
        (fst (fold_left
                (fun s x => fold_left (fun s z => City.createBlock random x z s)
                                      City.blockCentres s) xs site))
   <= List.length (fst site) + 32 * List.length xs)%nat.
Proof.
  intros Hr. revert site. induction xs as [|x xs IH]; intros site Hxs Hs.
  - simpl. split; [exact Hs | lia].
  - cbn [fold_left].
    destruct (createRow_builds random x City.blockCentres site Hr
                (Hxs x (or_introl eq_refl)) (fun z Hz => Hz) Hs) as (HF & HL).
    destruct (IH (fold_left (fun s z => City.createBlock random x z s)
                            City.blockCentres site)) as (HF' & HL').
    + intros x' Hx'. apply Hxs. now right.
    + exact HF.
    + split; [exact HF'|].
      change (List.length City.blockCentres) with 8%nat in HL.
      cbn [List.length] in *. lia.
Qed.

Lemma createCityArea_as_grid random site :
  City.createCityArea random site
  = fold_left
      (fun s x => fold_left (fun s z => City.createBlock random x z s)
                            City.blockCentres s)
      City.blockCentres site.
Proof.
  unfold City.createCityArea. cbv zeta.
  rewrite forLoop_over_block_centres. apply fold_left_ext.
  intros s x. apply forLoop_over_block_centres.
Qed.

(** X25. Whatever [Math.random] returns between 0 and 1, [createCityArea]
    builds on every one of the 8 x 8 blocks, since the test for a road
    intersection never holds at a block centre: it adds between 64 and 256
    buildings to an empty list, each standing on the ground within 40 of
    the centre of a block in [x] and in [z], with a height from 10 to 70
    and a width and depth from 10 to 30. *)
Theorem city_blocks_are_all_built (random : nat -> R) (k : nat) :
  (forall i, 0 <= random i < 1) ->
  (64 <= List.length (fst (City.createCityArea random ([], k))) <= 256)%nat /\
  (forall building,
      In building (fst (City.createCityArea random ([], k))) ->
      City.well_built building) /\
  (forall c, In c City.blockCentres -> City.rem (Rabs c) 100 = 50).
Proof.
  intros Hr. rewrite createCityArea_as_grid.
  destruct (createGrid_builds random City.blockCentres ([], k) Hr (fun x Hx => Hx))
    as (HF & HL); [constructor|].
  change (List.length City.blockCentres) with 8%nat in HL.
  change (List.length (fst (@nil City.Building, k))) with 0%nat in HL.
  split; [lia|]. split.
  - apply List.Forall_forall, HF.
  - apply rem_of_block_centre.
Qed.

(** The city of a stream that always answers one half. *)
Lemma city_blocks_are_all_built_witness :
  (forall i, 0 <= steadyRandom i < 1) /\
  (64 <= List.length (fst (City.createCityArea steadyRandom ([], 0%nat))) <= 256)%nat.
Proof.
  assert (Hr : forall i, 0 <= steadyRandom i < 1)
    by (intros i; unfold steadyRandom; lra).
  split; [exact Hr|].
  destruct (city_blocks_are_all_built steadyRandom 0 Hr) as (Hl & _).
  exact Hl.
Defined.

(** * The effective steering angle on a drive *)

Section Effective_angle.

Context `{Babylon}.

Lemma run_speed_in_range havok events : speed_in_range (run havok events).
Proof.
  unfold run. apply fold_step_invariant.
  - intros v e. apply step_speed_in_range.
  - unfold speed_in_range, maxSpeed. simpl. lra.
Qed.

Lemma speedFactor_within_the_caps v :
  speed_in_range v ->
  speedFactor v = Rmax 0 (1 - 0.5 * Rabs (speed v) / maxSpeed) /\
  0.5 <= Rmax 0 (1 - 0.5 * Rabs (speed v) / maxSpeed) <= 1.
Proof.
  unfold speed_in_range. intros Hs.
  assert (Ha : 0 <= Rabs (speed v) <= maxSpeed).
  { split; [apply Rabs_pos|]. unfold maxSpeed in *.
    unfold Rabs. destruct Rcase_abs; lra. }
  split.
  - apply speedFactor_agrees. unfold maxSpeed in *. lra.
  - clamp.
Qed.

Lemma update_turns_by_the_stored_angle f v :
  chassisBody v = false ->
  speed (update f v) <> 0 ->
  rotation (update f v)
  = rotation v
    + speed (update f v)
      / (wheelBase / sin (Rabs (steeringAngle (updateSteering v)) + 0.0001))
      * Math.sign (steeringAngle (updateSteering v)).
Proof.
  intros Hc Hs. rewrite update_speed in *. rewrite update_unfold, Hc.
  destruct (beforePhysics_motion f v) as (Es & Ea & Er & _).
  assert (Hne : speed (beforePhysics f v) <> 0) by now rewrite Es.
  destruct (updateBasicPhysics_moves f _ Hne) as (-> & _).
  unfold turned. now rewrite Es, Ea, Er.
Qed.

End Effective_angle.

Lemma right_turn_start :
  run false rightTurnStart = update emptyFrame turningRight.
Proof. reflexivity. Qed.

(** The vehicle after the first frame of the right turn, and what the
    second frame makes of its speed and steering. *)
Lemma after_right_turn_start :
  speed (run false rightTurnStart) = 0.5 /\
  steeringAngle (run false rightTurnStart) = 0.05 /\
  chassisBody (run false rightTurnStart) = false /\
  controls (run false rightTurnStart) = controls turningRight /\
  List.length (wheelMeshes (run false rightTurnStart)) = 4%nat.
Proof.
  rewrite right_turn_start.
  rewrite update_speed, update_steeringAngle, update_chassisBody, update_controls.
  destruct (update_keeps_the_wheels emptyFrame turningRight) as [-> _].
  split; [apply updateSpeed_forward_from_rest; reflexivity|].
  split; [apply updateSteering_right_from_centre; reflexivity|].
  repeat split; reflexivity.
Qed.

Lemma second_frame_of_right_turn :
  steeringAngle (updateSteering (run false rightTurnStart)) = 0.1 /\
  speed (update emptyFrame (run false rightTurnStart)) = 0.996875.
Proof.
  destruct after_right_turn_start as (Hs & Ha & _ & Hk & _).
  split.
  - rewrite updateSteering_right by (rewrite Hk; reflexivity).
    rewrite Ha. unfold maxSteeringAngle. pose proof PI_gt_3. clamp.
  - rewrite update_speed, updateSpeed_forward by (rewrite Hk; reflexivity).
    rewrite Hs, Rabs_pos_eq by lra. clamp.
Qed.

Lemma second_frame_heading :
  rotation (update emptyFrame (run false rightTurnStart))
  - rotation (run false rightTurnStart)
  = 0.996875 * sin 0.1001 / 4.
Proof.
  destruct after_right_turn_start as (_ & _ & Hc & _).
  destruct second_frame_of_right_turn as (Ha & Hs).
  rewrite (update_turns_by_the_stored_angle emptyFrame _ Hc)
    by (rewrite Hs; lra).
  rewrite Hs, Ha. rewrite Rabs_pos_eq by lra. rewrite Math_sign_pos by lra.
  replace (0.1 + 0.0001) with 0.1001 by lra.
  rewrite quotient_by_turn_radius by (apply sin_small_pos; lra). lra.
Qed.

Lemma second_frame_front_left :
  exists wheel : Wheel.t,
    wheelMeshes (updateSteering (run false rightTurnStart)) !! 0%nat = Some wheel /\
    Vector3.y (Wheel.rotation wheel) = 0.0996875.
Proof.
  destruct after_right_turn_start as (Hs & _ & _ & _ & Hl).
  destruct second_frame_of_right_turn as (Ha & _).
  rewrite (updateSteering_front_wheels _ 0) by lia.
  destruct (lookup_lt_is_Some_2 (wheelMeshes (run false rightTurnStart)) 0)
    as [w0 ->]; [lia|].
  eexists. split; [reflexivity|]. simpl.
  unfold effectiveSteeringAngle, speedFactor.
  rewrite Ha, Hs, Rabs_pos_eq by lra. clamp.
Qed.

(** C8, as the code has it. On a drive the speed stays within the caps, and
    there the angle that [updateSteering] works out and gives to the two
    front wheels is the stored steering angle times the spec's
    [max(0, 1 - 0.5 * |speed| / maxSpeed)], which is the code's
    [min(1, 1 - |speed| / maxSpeed * 0.5)] and lies between one half and
    one. It is not the angle that turns the vehicle: with the basic physics
    a moving vehicle turns in the same frame by the stored steering angle
    itself. *)
Theorem effective_steering_angle_steers_the_wheels `{Babylon}
    (havok : bool) (events : list Event) (f : Frame) (i : nat) (wheel : Wheel.t) :
  (i < 2)%nat ->
  (2 <= List.length (wheelMeshes (run havok events)))%nat ->
  wheelMeshes (updateSteering (run havok events)) !! i = Some wheel ->
  Vector3.y (Wheel.rotation wheel)
  = steeringAngle (updateSteering (run havok events))
    * Rmax 0 (1 - 0.5 * Rabs (speed (run havok events)) / maxSpeed) /\
  Vector3.y (Wheel.rotation wheel)
  = steeringAngle (updateSteering (run havok events))
    * Rmin 1 (1 - (Rabs (speed (run havok events)) / maxSpeed) * 0.5) /\
  0.5 <= Rmax 0 (1 - 0.5 * Rabs (speed (run havok events)) / maxSpeed) <= 1 /\
  (chassisBody (run havok events) = false ->
   speed (update f (run havok events)) <> 0 ->
   rotation (update f (run havok events))
   = rotation (run havok events)
     + speed (update f (run havok events))
       / (wheelBase
          / sin (Rabs (steeringAngle (updateSteering (run havok events))) + 0.0001))
       * Math.sign (steeringAngle (updateSteering (run havok events)))).
Proof.
  intros Hi Hl Hw.
  destruct (speedFactor_within_the_caps _ (run_speed_in_range havok events))
    as (Hf & Hb).
  rewrite (updateSteering_front_wheels _ i Hi Hl) in Hw.
  destruct (wheelMeshes (run havok events) !! i) as [w0|]; [|discriminate].
  injection Hw as <-. cbn [set_rotation_y Wheel.rotation Vector3.set_y Vector3.y].
  unfold effectiveSteeringAngle.
  split; [now rewrite Hf|]. split; [reflexivity|]. split; [exact Hb|].
  apply update_turns_by_the_stored_angle.
Qed.

(** The second frame of the right turn: the stored steering angle is 0.1
    and the speed 0.5, so the front left wheel gets 0.1 times 0.996875,
    and the heading grows by the speed of the frame times [sin 0.1001 / 4]. *)
Lemma effective_steering_angle_steers_the_wheels_witness :
  (0 < 2)%nat /\
  (2 <= List.length (wheelMeshes (run false rightTurnStart)))%nat /\
  chassisBody (run false rightTurnStart) = false /\
  speed (update emptyFrame (run false rightTurnStart)) <> 0 /\
  exists wheel : Wheel.t,
    wheelMeshes (updateSteering (run false rightTurnStart)) !! 0%nat = Some wheel /\
    Vector3.y (Wheel.rotation wheel) = 0.1 * 0.996875 /\
    rotation (update emptyFrame (run false rightTurnStart))
    = rotation (run false rightTurnStart) + 0.996875 * sin 0.1001 / 4.
Proof.
  destruct after_right_turn_start as (Hs & _ & Hc & _ & Hl).
  destruct second_frame_of_right_turn as (Ha & Hs2).
  assert (H2 : (2 <= List.length (wheelMeshes (run false rightTurnStart)))%nat)
    by (rewrite Hl; lia).
  assert (Hne : speed (update emptyFrame (run false rightTurnStart)) <> 0)
    by (rewrite Hs2; lra).
  split; [lia|]. split; [exact H2|]. split; [exact Hc|]. split; [exact Hne|].
  destruct second_frame_front_left as (wheel & Hw & _).
  exists wheel. split; [exact Hw|].
  destruct (effective_steering_angle_steers_the_wheels
              false rightTurnStart emptyFrame 0 wheel ltac:(lia) H2 Hw)
    as (Hy & _ & _ & Hr).
  split.
  - rewrite Hy, Ha, Hs. rewrite Rabs_pos_eq by lra.
    f_equal. unfold maxSpeed, Rmax. destruct Rle_dec; lra.
  - rewrite (Hr Hc Hne), Hs2, Ha.
    rewrite Rabs_pos_eq by lra. rewrite Math_sign_pos by lra.
    replace (0.1 + 0.0001) with 0.1001 by lra.
    rewrite quotient_by_turn_radius by (apply sin_small_pos; lra). lra.
Defined.

(** C8, as the spec has it, fails. In the second frame of the right turn
    the stored steering angle is 0.1 and the speed 0.5: the effective
    steering angle is 0.1 times 0.996875 and goes to the front wheels, but
    the heading grows by [0.996875 * sin (0.1 + 0.0001) / 4], the turn of
    the stored angle, and not by the turn of the effective angle. *)
Lemma effective_angle_does_not_turn_the_vehicle :
  exists wheel : Wheel.t,
    wheelMeshes (updateSteering (run false rightTurnStart)) !! 0%nat = Some wheel /\
    Vector3.y (Wheel.rotation wheel) = 0.0996875 /\
    spec_effectiveSteeringAngle (updateSteering (run false rightTurnStart))
    = 0.0996875 /\
    steeringAngle (update emptyFrame (run false rightTurnStart)) = 0.1 /\
    speed (update emptyFrame (run false rightTurnStart)) = 0.996875 /\
    rotation (update emptyFrame (run false rightTurnStart))
    - rotation (run false rightTurnStart)
    = 0.996875 * sin (0.1 + 0.0001) / 4 /\
    rotation (update emptyFrame (run false rightTurnStart))
    - rotation (run false rightTurnStart)
    <> 0.996875 * sin (0.0996875 + 0.0001) / 4.
Proof.
  destruct after_right_turn_start as (Hs & _ & _ & _ & _).
  destruct second_frame_of_right_turn as (Ha & Hs2).
  destruct second_frame_front_left as (wheel & Hw & Hy).
  exists wheel. split; [exact Hw|]. split; [exact Hy|].
  split; [|split; [|split; [|split]]].
  - unfold spec_effectiveSteeringAngle.
    rewrite updateSteering_speed, Ha, Hs, Rabs_pos_eq by lra. clamp.
  - now rewrite update_steeringAngle.
  - exact Hs2.
  - rewrite second_frame_heading. f_equal. f_equal. f_equal. lra.
  - rewrite second_frame_heading.
    pose proof (sin_small_lt (0.0996875 + 0.0001) 0.1001). lra.
Qed.
